(** * Crossmint smart wallet client: call building, submission and signing

    A shallow embedding of
    [wallets/crossmint/goat_wallets/crossmint/smart_wallet.py]:
    [build_transaction_data], and the three operations of
    [SmartWalletClient] that talk to the custody API
    ([_send_batch_of_transactions], [sign_message], [sign_typed_data]).

    The custody API client, the key library and the ABI encoder are
    collaborators outside this file; they are the fields of [Env], and
    every theorem holds for every [Env]. *)

From Stdlib Require Import ZArith String List Bool Lia.
From Stdlib Require Import DecimalString DecimalPos DecimalZ.
Import ListNotations.
Local Open Scope string_scope.
Local Open Scope list_scope.
Set Warnings "-register-all".

(* ================================================================= *)
(** ** Python values, exceptions and the few builtins the module uses *)

Module Py.

(** JSON-shaped values: what the API client hands back and what the
    operations return ([Dict[str, str]] in the annotations, but nothing
    enforces it at run time).  A dict keeps its insertion order. *)
Inductive pyval : Type :=
| PNone
| PBool (b : bool)
| PInt (z : Z)
| PStr (s : string)
| PList (l : list pyval)
| PDict (d : list (string * pyval)).

Inductive exn : Type :=
| ValueError (msg : string)
| KeyError (key : pyval)
| IndexError
| TypeError
| AttributeError
| External (what : string).   (* raised inside a collaborator *)

Inductive result (A : Type) : Type :=
| Ok (a : A)
| Err (e : exn).
Arguments Ok {A} a.
Arguments Err {A} e.

Definition rbind {A B} (r : result A) (f : A -> result B) : result B :=
  match r with
  | Ok a => f a
  | Err e => Err e
  end.

(** [bool(v)], as used by [not v] and [if v]. *)
Definition truthy (v : pyval) : bool :=
  match v with
  | PNone => false
  | PBool b => b
  | PInt z => negb (Z.eqb z 0)
  | PStr s => negb (String.eqb s "")
  | PList l => match l with [] => false | _ :: _ => true end
  | PDict d => match d with [] => false | _ :: _ => true end
  end.

Fixpoint assoc (k : string) (d : list (string * pyval)) : option pyval :=
  match d with
  | [] => None
  | (k', v) :: d' => if String.eqb k k' then Some v else assoc k d'
  end.

(** [v[k]] for a string key [k]. *)
Definition getitem (v : pyval) (k : string) : result pyval :=
  match v with
  | PDict d =>
      match assoc k d with
      | Some x => Ok x
      | None => Err (KeyError (PStr k))
      end
  | _ => Err TypeError
  end.

(** [v[0]]. *)
Definition getitem0 (v : pyval) : result pyval :=
  match v with
  | PList l =>
      match l with
      | x :: _ => Ok x
      | [] => Err IndexError
      end
  | PStr s =>
      match s with
      | String c _ => Ok (PStr (String c EmptyString))
      | EmptyString => Err IndexError
      end
  | PDict _ => Err (KeyError (PInt 0))
  | _ => Err TypeError
  end.

(** [v.get(k, default)]; only dicts have the method. *)
Definition get (v : pyval) (k : string) (default : pyval) : result pyval :=
  match v with
  | PDict d =>
      match assoc k d with
      | Some x => Ok x
      | None => Ok default
      end
  | _ => Err AttributeError
  end.

(** [v == s] for a string literal [s]. *)
Definition eq_str (v : pyval) (s : string) : bool :=
  match v with
  | PStr s' => String.eqb s' s
  | _ => false
  end.

(** [str(z)] for an int. *)
Definition str (z : Z) : string := NilZero.string_of_int (Z.to_int z).

(** The integer a decimal numeral stands for (an optional sign, then
    digits); used to say what [str] produces. *)
Definition read_decimal (s : string) : option Z :=
  option_map Z.of_int (NilZero.int_of_string s).

(** [value or 0] for an [Optional[int]]. *)
Definition or_zero (value : option Z) : Z :=
  match value with
  | Some v => if Z.eqb v 0 then 0%Z else v
  | None => 0%Z
  end.

(** [not l] for an [Optional[List]]. *)
Definition not_list (l : option (list pyval)) : bool :=
  match l with
  | Some (_ :: _) => false
  | _ => true
  end.

(** [not s] for an [Optional[str]]. *)
Definition not_str (s : option string) : bool :=
  match s with
  | Some s' => String.eqb s' ""
  | None => true
  end.

(** [l or []] for an [Optional[List]]. *)
Definition or_nil (l : option (list pyval)) : list pyval :=
  match l with
  | Some l' => l'
  | None => []
  end.

Fixpoint map_result {A B} (f : A -> result B) (l : list A) : result (list B) :=
  match l with
  | [] => Ok []
  | a :: l' =>
      rbind (f a) (fun b => rbind (map_result f l') (fun bs => Ok (b :: bs)))
  end.

End Py.
Import Py.

(* ================================================================= *)
(** ** Data of the wallet client *)

(** [Call] of [api_client]: the wire form of one on-chain call. *)
Record Call : Type := mkCall { to : string; value : string; data : string }.

(** [EVMTransaction]: a dict whose only required key is ["to"]; [None]
    stands for a key that is not there. *)
Record EVMTransaction : Type := mkTx {
  tx_to : string;
  tx_abi : option (list pyval);
  tx_functionName : option string;
  tx_args : option (list pyval);
  tx_value : option Z
}.

(** [Signer = Union[CustodialSigner, KeyPairSigner]]: a plain string, or a
    dict with the keys ["secretKey"] and ["address"]. *)
Inductive Signer : Type :=
| CustodialSigner (s : string)
| KeyPairSigner (secretKey address : string).

(** The fields [__init__] stores and the operations read. *)
Record SmartWalletClient : Type := mkClient {
  _address : string;
  _chain : string;
  _signer : Signer;
  _locator : string
}.

(** What the operations use of an [eth_account] account: its address and
    [sign_message(encode_defunct(hexstr=m)).signature.hex()]. *)
Record Account : Type := mkAccount {
  account_address : string;
  account_sign_hex : pyval -> result string
}.

(** One element of the approvals list sent to [approve_transaction]. *)
Record Approval : Type := mkApproval { signature : string; signer : string }.

(** The methods of [CrossmintWalletsAPI] the client calls, with their
    arguments in call order. *)
Inductive call : Type :=
| create_transaction_for_smart_wallet
    (address : string) (calls : list Call) (chain : string)
    (signer_address : option string)
| approve_transaction
    (locator : string) (id : pyval) (approvals : list Approval)
| check_transaction_status (locator : string) (id : pyval)
| sign_message_for_smart_wallet
    (address message chain : string) (signer_address : option string)
| sign_typed_data_for_smart_wallet
    (address : string) (typed_data : pyval) (chain signer_address : string)
| approve_signature_for_smart_wallet
    (id : pyval) (address signer_tag sig : string)
| check_signature_status (id : pyval) (address : string).

(** What an operation does to the outside, in order: a custody API call
    with what came back, a signature made with the local key, a sleep. *)
Inductive event : Type :=
| Api (c : call) (r : result pyval)
| LocalSign (signer_address : string) (to_sign : pyval) (r : result string)
| Sleep (seconds : Z).

(** How a run ends.  [OutOfFuel] is the model's name for a [while True]
    loop still running when the iteration budget is used up. *)
Inductive outcome (A : Type) : Type :=
| Returned (a : A)
| Raised (e : exn)
| OutOfFuel.
Arguments Returned {A} a.
Arguments Raised {A} e.
Arguments OutOfFuel {A}.

(** A computation reads the events so far and yields its outcome together
    with the events it added. *)
Definition M (A : Type) : Type := list event -> outcome A * list event.

Definition ret {A} (a : A) : M A := fun _ => (Returned a, []).

Definition raise {A} (e : exn) : M A := fun _ => (Raised e, []).

Definition bind {A B} (m : M A) (k : A -> M B) : M B :=
  fun h =>
    match m h with
    | (Returned a, t1) =>
        match k a (h ++ t1) with
        | (o, t2) => (o, t1 ++ t2)
        end
    | (Raised e, t1) => (Raised e, t1)
    | (OutOfFuel, t1) => (OutOfFuel, t1)
    end.

Definition lift {A} (r : result A) : M A :=
  match r with
  | Ok a => ret a
  | Err e => raise e
  end.

Declare Scope wallet_scope.
Delimit Scope wallet_scope with wallet.
Notation "x <- m ;; k" := (bind m (fun x => k))
  (at level 61, m at next level, right associativity) : wallet_scope.
Notation "m ;;; k" := (bind m (fun _ => k))
  (at level 61, right associativity) : wallet_scope.
Local Open Scope wallet_scope.

(** [await asyncio.sleep(seconds)]. *)
Definition sleep (seconds : Z) : M unit :=
  fun _ => (Returned tt, [Sleep seconds]).

(** [account.sign_message(encode_defunct(hexstr=to_sign)).signature.hex()]. *)
Definition local_sign (account : Account) (to_sign : pyval) : M string :=
  fun _ =>
    let r := account_sign_hex account to_sign in
    (match r with Ok s => Returned s | Err e => Raised e end,
     [LocalSign (account_address account) to_sign r]).

(** [while True: body], cut off after [fuel] iterations.  The body yields
    [Some v] for [return v] and [None] when it falls through to the next
    iteration. *)
Fixpoint while_true {A} (fuel : nat) (body : M (option A)) : M A :=
  match fuel with
  | O => fun _ => (OutOfFuel, [])
  | S fuel' =>
      r <- body ;;
      match r with
      | Some a => ret a
      | None => while_true fuel' body
      end
  end.

(** [get_locator(address)] as [__init__] calls it, without a linked user. *)
Definition get_locator (address : option string) : result string :=
  if not_str address then
    Err (ValueError "A Smart Wallet address is required if no linked user is provided")
  else
    Ok (match address with Some a => a | None => "" end).

(** The fields set by [SmartWalletClient.__init__]. *)
Definition SmartWalletClient_init (address chain : string) (signer : Signer)
  : result SmartWalletClient :=
  rbind (get_locator (Some address)) (fun locator =>
  Ok (mkClient address chain signer locator)).

Definition has_custodial_signer (self : SmartWalletClient) : bool :=
  match _signer self with
  | CustodialSigner _ => true
  | KeyPairSigner _ _ => false
  end.

Definition secret_key (self : SmartWalletClient) : option string :=
  match _signer self with
  | CustodialSigner _ => None
  | KeyPairSigner k _ => Some k
  end.

(** [cast(KeyPairSigner, self._signer)["address"]]: indexing a [str] with a
    string key is a [TypeError]. *)
Definition signer_address_field (self : SmartWalletClient) : result string :=
  match _signer self with
  | CustodialSigner _ => Err TypeError
  | KeyPairSigner _ a => Ok a
  end.

(* ================================================================= *)
(** ** Collaborators *)

(** Everything the module calls but does not define.  The custody API is a
    function of the events so far and the call made, so it may answer
    every call differently (or raise, for a transport failure). *)
Record Env : Type := mkEnv {
  (** [self._client]: the methods of [CrossmintWalletsAPI]. *)
  api : list event -> call -> result pyval;
  (** [Account.from_key] (also reached as [self._w3.eth.account.from_key]). *)
  from_key : string -> result Account;
  (** [w3_sync.to_checksum_address]. *)
  to_checksum_address : string -> result string;
  (** [w3_sync.eth.contract(address=a, abi=abi).encodeFunction(f, args).hex()]. *)
  encode_function_hex :
    string -> list pyval -> string -> list pyval -> result string
}.

(* ================================================================= *)
(** ** The operations *)

Section Operations.

Variable env : Env.

(** [await self._client.<method>(...)]. *)
Definition api_call (c : call) : M pyval :=
  fun h =>
    let r := api env h c in
    (match r with Ok v => Returned v | Err e => Raised e end, [Api c r]).

Definition build_transaction_data
    (recipient_address : string)
    (abi : option (list pyval))
    (function_name : option string)
    (args : option (list pyval))
    (value : option Z) : result Call :=
  if not_list abi then
    Ok (mkCall recipient_address (str (or_zero value)) "0x")
  else if not_str function_name then
    Err (ValueError "Function name is required when ABI is provided")
  else
    rbind (to_checksum_address env recipient_address) (fun address =>
    rbind (encode_function_hex env address (or_nil abi)
             (match function_name with Some f => f | None => "" end)
             (or_nil args)) (fun data =>
    Ok (mkCall recipient_address (str (or_zero value)) data))).

(** The element expression of the list comprehension in
    [_send_batch_of_transactions]; [tx.get("value", 0)] supplies the
    default for a missing key. *)
Definition call_of_transaction (tx : EVMTransaction) : result Call :=
  build_transaction_data
    (tx_to tx) (tx_abi tx) (tx_functionName tx) (tx_args tx)
    (match tx_value tx with Some v => Some v | None => Some 0%Z end).

(** The [signerAccount] property: [None] for a custodial signer. *)
Definition signerAccount (self : SmartWalletClient) : result (option Account) :=
  match _signer self with
  | CustodialSigner _ => Ok None
  | KeyPairSigner k _ => rbind (from_key env k) (fun a => Ok (Some a))
  end.

(** [account = self.signerAccount] followed by [if not account: raise]. *)
Definition require_signer_account (self : SmartWalletClient) : M Account :=
  account <- lift (signerAccount self) ;;
  match account with
  | None => raise (ValueError "Signer account is not available")
  | Some a => ret a
  end.

(** [if not self.secret_key: raise]. *)
Definition require_secret_key (self : SmartWalletClient) : M string :=
  if not_str (secret_key self) then
    raise (ValueError "Signer account is not available")
  else
    ret (match secret_key self with Some k => k | None => "" end).

(** The body of the [while True] loop shared, line for line, by
    [sign_message] and [sign_typed_data]; [signature_id] is evaluated anew
    in every iteration. *)
Definition signature_poll_body
    (self : SmartWalletClient) (signature_id : result pyval)
  : M (option pyval) :=
  id <- lift signature_id ;;
  status <- api_call (check_signature_status id (_address self)) ;;
  st <- lift (getitem status "status") ;;
  if eq_str st "success" then
    out <- lift (get status "outputSignature" PNone) ;;
    if negb (truthy out) then
      raise (ValueError "Signature is undefined")
    else
      sig <- lift (getitem status "outputSignature") ;;
      ret (Some (PDict [("signature", sig)]))
  else
    st' <- lift (getitem status "status") ;;
    if eq_str st' "failed" then
      raise (ValueError "Signature failed")
    else
      sleep 2 ;;;
      ret None.

Definition sign_message
    (fuel : nat) (self : SmartWalletClient) (message : string) : M pyval :=
  signer_address <-
    (if negb (has_custodial_signer self) then
       account <- require_signer_account self ;;
       ret (Some (account_address account))
     else ret None) ;;
  response <- api_call
    (sign_message_for_smart_wallet
       (_address self) message (_chain self) signer_address) ;;
  signature_id <- lift (getitem response "id") ;;
  approvals <- lift (get response "approvals" (PDict [])) ;;
  (if negb (has_custodial_signer self) then
     account <- require_signer_account self ;;
     pending_approvals <- lift (get approvals "pending" (PList [])) ;;
     if negb (truthy pending_approvals) then
       raise (ValueError "No pending approvals found")
     else
       first <- lift (getitem0 pending_approvals) ;;
       to_sign <- lift (get first "message" PNone) ;;
       if negb (truthy to_sign) then
         raise (ValueError "No message to sign in approvals")
       else
         sig <- local_sign account to_sign ;;
         api_call
           (approve_signature_for_smart_wallet
              signature_id (_address self)
              ("evm-keypair:" ++ account_address account) sig) ;;;
         ret tt
   else ret tt) ;;;
  while_true fuel (signature_poll_body self (Ok signature_id)).

Definition sign_typed_data
    (fuel : nat) (self : SmartWalletClient) (typed_data : pyval) : M pyval :=
  match _signer self with
  | CustodialSigner _ =>
      raise (ValueError "Keypair signer is required for typed data signing")
  | KeyPairSigner _ signer_address =>
      response <- api_call
        (sign_typed_data_for_smart_wallet
           (_address self) typed_data (_chain self) signer_address) ;;
      (if negb (has_custodial_signer self) then
         key <- require_secret_key self ;;
         approvals <- lift (getitem response "approvals") ;;
         pending <- lift (getitem approvals "pending") ;;
         first <- lift (getitem0 pending) ;;
         to_sign <- lift (getitem first "message") ;;
         account <- lift (from_key env key) ;;
         sig <- local_sign account to_sign ;;
         id <- lift (getitem response "id") ;;
         api_call
           (approve_signature_for_smart_wallet
              id (_address self)
              ("evm-keypair:" ++ account_address account) sig) ;;;
         ret tt
       else ret tt) ;;;
      while_true fuel (signature_poll_body self (getitem response "id"))
  end.

(** The body of the [while True] loop of [_send_batch_of_transactions]. *)
Definition transaction_poll_body
    (self : SmartWalletClient) (response : pyval) : M (option pyval) :=
  id <- lift (getitem response "id") ;;
  status <- api_call (check_transaction_status (_locator self) id) ;;
  st <- lift (getitem status "status") ;;
  if eq_str st "success" || eq_str st "failed" then
    on_chain <- lift (get status "onChain" (PDict [])) ;;
    tx_id <- lift (get on_chain "txId" (PStr "")) ;;
    st' <- lift (getitem status "status") ;;
    ret (Some (PDict [("hash", tx_id); ("status", st')]))
  else
    sleep 2 ;;;
    ret None.

Definition _send_batch_of_transactions
    (fuel : nat) (self : SmartWalletClient)
    (transactions : list EVMTransaction) : M pyval :=
  transaction_data <- lift (map_result call_of_transaction transactions) ;;
  approver <-
    (if has_custodial_signer self then ret None
     else a <- lift (signer_address_field self) ;; ret (Some a)) ;;
  response <- api_call
    (create_transaction_for_smart_wallet
       (_address self) transaction_data (_chain self) approver) ;;
  (if negb (has_custodial_signer self) then
     key <- require_secret_key self ;;
     approvals <- lift (getitem response "approvals") ;;
     pending <- lift (getitem approvals "pending") ;;
     first <- lift (getitem0 pending) ;;
     user_op_hash <- lift (getitem first "message") ;;
     if negb (truthy user_op_hash) then
       raise (ValueError "User operation hash is not available")
     else
       account <- lift (from_key env key) ;;
       sig <- local_sign account user_op_hash ;;
       id <- lift (getitem response "id") ;;
       api_call
         (approve_transaction (_locator self) id
            [mkApproval sig ("evm-keypair:" ++ account_address account)]) ;;;
       ret tt
   else ret tt) ;;;
  while_true fuel (transaction_poll_body self response).

Definition send_transaction
    (fuel : nat) (self : SmartWalletClient) (transaction : EVMTransaction)
  : M pyval :=
  _send_batch_of_transactions fuel self [transaction].

Definition send_batch_of_transactions
    (fuel : nat) (self : SmartWalletClient)
    (transactions : list EVMTransaction) : M pyval :=
  _send_batch_of_transactions fuel self transactions.

End Operations.

(* ================================================================= *)
(** ** Vocabulary for traces *)

Fixpoint last_event (t : list event) : option event :=
  match t with
  | [] => None
  | [e] => Some e
  | _ :: t' => last_event t'
  end.

Definition is_status_call (c : call) : bool :=
  match c with
  | check_transaction_status _ _ => true
  | check_signature_status _ _ => true
  | _ => false
  end.

Definition is_status_check (e : event) : bool :=
  match e with
  | Api c _ => is_status_call c
  | _ => false
  end.

Definition is_api_call (e : event) : bool :=
  match e with
  | Api _ _ => true
  | _ => false
  end.

(** A request that makes the custody API create a pending operation. *)
Definition is_creation (e : event) : bool :=
  match e with
  | Api (create_transaction_for_smart_wallet _ _ _ _) _ => true
  | Api (sign_message_for_smart_wallet _ _ _ _) _ => true
  | Api (sign_typed_data_for_smart_wallet _ _ _ _) _ => true
  | _ => false
  end.

Definition is_approval (e : event) : bool :=
  match e with
  | Api (approve_transaction _ _ _) _ => true
  | Api (approve_signature_for_smart_wallet _ _ _ _) _ => true
  | _ => false
  end.

Definition is_local_sign (e : event) : bool :=
  match e with
  | LocalSign _ _ _ => true
  | _ => false
  end.

(** A creation request that names an approver address. *)
Definition names_approver (e : event) : bool :=
  match e with
  | Api (create_transaction_for_smart_wallet _ _ _ (Some _)) _ => true
  | Api (sign_message_for_smart_wallet _ _ _ (Some _)) _ => true
  | Api (sign_typed_data_for_smart_wallet _ _ _ _) _ => true
  | _ => false
  end.

(** What a run with a custodial signer may do. *)
Definition custodial_event (e : event) : bool :=
  negb (is_local_sign e) && negb (is_approval e) && negb (names_approver e).

Definition count (p : event -> bool) (t : list event) : nat :=
  length (filter p t).

(** [status["status"] == s], false when the key is not there. *)
Definition status_is (status : pyval) (s : string) : bool :=
  match getitem status "status" with
  | Ok st => eq_str st s
  | Err _ => false
  end.

Definition terminal (status : pyval) : bool :=
  status_is status "success" || status_is status "failed".

(** A status answer that carries a ["status"] other than the two terminal
    ones (["pending"] among them). *)
Definition waiting (status : pyval) : bool :=
  match getitem status "status" with
  | Ok st => negb (eq_str st "success" || eq_str st "failed")
  | Err _ => false
  end.

(** One polling cycle: status fetches answered with a waiting status, each
    followed by one sleep of two seconds, then one fetch answered with a
    terminal status and nothing after it. *)
Fixpoint poll_cycle (t : list event) : bool :=
  match t with
  | Api c (Ok status) :: rest =>
      is_status_call c &&
      match rest with
      | [] => terminal status
      | Sleep s :: rest' => Z.eqb s 2 && waiting status && poll_cycle rest'
      | _ => false
      end
  | _ => false
  end.

(** The events of fetching each status of [ss] with call [c] and sleeping
    after it. *)
Definition waits (c : call) (ss : list pyval) : list event :=
  flat_map (fun s => [Api c (Ok s); Sleep 2]) ss.

(* ================================================================= *)
(** ** Collaborator doubles for the worked scenarios *)

(** A custody API that answers every creation request with [created],
    every approval with [None], and the [n]-th status fetch with the
    [n]-th element of [statuses] ([rest] once they are used up). *)
Definition scripted_api (created : pyval) (statuses : list pyval) (rest : pyval)
  : list event -> call -> result pyval :=
  fun h c =>
    match c with
    | check_transaction_status _ _ =>
        Ok (nth (count is_status_check h) statuses rest)
    | check_signature_status _ _ =>
        Ok (nth (count is_status_check h) statuses rest)
    | approve_transaction _ _ _ => Ok PNone
    | approve_signature_for_smart_wallet _ _ _ _ => Ok PNone
    | _ => Ok created
    end.

Definition demo_account : Account :=
  mkAccount "0xS1GNER"
    (fun m =>
       match m with
       | PStr s => Ok ("signed:" ++ s)%string
       | _ => Err TypeError
       end).

Definition demo_env (created : pyval) (statuses : list pyval) (rest : pyval)
  : Env :=
  mkEnv (scripted_api created statuses rest)
        (fun _ => Ok demo_account)
        (fun a => Ok a)
        (fun _ _ f _ => Ok ("0xcalldata:" ++ f)%string).

Definition custodial_wallet : SmartWalletClient :=
  mkClient "0xWALLET" "base-sepolia" (CustodialSigner "custodial") "0xWALLET".

Definition keypair_wallet : SmartWalletClient :=
  mkClient "0xWALLET" "base-sepolia"
    (KeyPairSigner "0xSECRET" "0xS1GNER") "0xWALLET".

(** [{target: "0xABC", value: 10**18}] without a contract call. *)
Definition transfer_tx : EVMTransaction :=
  mkTx "0xABC" None None None (Some 1000000000000000000%Z).

Definition status_pending : pyval := PDict [("status", PStr "pending")].
Definition status_failed : pyval := PDict [("status", PStr "failed")].
Definition status_success_tx : pyval :=
  PDict [("status", PStr "success"); ("onChain", PDict [("txId", PStr "0xTX1")])].

(** A failed status that still carries the id of the reverted
    transaction. *)
Definition status_failed_on_chain : pyval :=
  PDict [("status", PStr "failed"); ("onChain", PDict [("txId", PStr "0xTX9")])].

(** A failed status whose ["onChain"] is there, but is [None]. *)
Definition status_failed_null_on_chain : pyval :=
  PDict [("status", PStr "failed"); ("onChain", PNone)].

Definition status_success_signature : pyval :=
  PDict [("status", PStr "success"); ("outputSignature", PStr "0xS1G")].

(** A success status whose ["outputSignature"] is there, but empty. *)
Definition status_success_empty_signature : pyval :=
  PDict [("status", PStr "success"); ("outputSignature", PStr "")].

(** A created transaction awaiting the approval of ["0xDEAD"]. *)
Definition created_transaction : pyval :=
  PDict [("id", PStr "tx-1");
         ("approvals",
          PDict [("pending", PList [PDict [("message", PStr "0xDEAD")]])])].

(** A created transaction with nothing pending. *)
Definition created_transaction_nothing_pending : pyval :=
  PDict [("id", PStr "tx-1"); ("approvals", PDict [("pending", PList [])])].

Definition created_signature : pyval := PDict [("id", PStr "sig-1")].

Definition transfer_call : Call :=
  mkCall "0xABC" "1000000000000000000" "0x".

(* ================================================================= *)
(** ** Predicates on computations *)

(** Whatever the events so far, [m] adds only events that satisfy [P]. *)
Definition quiet {A} (P : event -> bool) (m : M A) : Prop :=
  forall h, forallb P (snd (m h)) = true.

(** Whenever the last thing [m] did was to fetch a status, and the fetch
    was answered with [status], the outcome of [m] is related to that
    status by [R]. *)
Definition on_final_status {A}
    (R : pyval -> outcome A -> Prop) (m : M A) : Prop :=
  forall h c status,
    last_event (snd (m h)) = Some (Api c (Ok status)) ->
    is_status_call c = true ->
    R status (fst (m h)).

(** The same for a loop body: a body whose last event is an answered
    status fetch has left the loop, by [return] or by [raise]. *)
Definition body_on_final_status {A}
    (R : pyval -> outcome A -> Prop) (body : M (option A)) : Prop :=
  forall h c status,
    last_event (snd (body h)) = Some (Api c (Ok status)) ->
    is_status_call c = true ->
    match fst (body h) with
    | Returned (Some a) => R status (Returned a)
    | Raised e => R status (Raised e)
    | _ => False
    end.

(** [status.get("onChain", {}).get("txId", "")]. *)
Definition transaction_hash (status : pyval) : result pyval :=
  rbind (get status "onChain" (PDict [])) (fun on_chain =>
  get on_chain "txId" (PStr "")).

(** What a transaction submission makes of a terminal status [s]: the
    dict [{"hash": ..., "status": s}], returned. *)
Definition transaction_outcome (status : pyval) (o : outcome pyval) : Prop :=
  forall s tx_id,
    s = "success" \/ s = "failed" ->
    status_is status s = true ->
    transaction_hash status = Ok tx_id ->
    o = Returned (PDict [("hash", tx_id); ("status", PStr s)]).

(** The same without a condition on the hash: a terminal status [s]
    becomes the dict when [status.get("onChain", {}).get("txId", "")]
    has a value, and the exception of that expression when it raises. *)
Definition transaction_result (status : pyval) (o : outcome pyval) : Prop :=
  forall s,
    s = "success" \/ s = "failed" ->
    status_is status s = true ->
    o = match transaction_hash status with
        | Ok tx_id => Returned (PDict [("hash", tx_id); ("status", PStr s)])
        | Err e => Raised e
        end.

(** What a signing operation makes of a terminal status: [failed] raises,
    [success] returns the signature unless it is missing or falsy. *)
Definition signature_outcome (status : pyval) (o : outcome pyval) : Prop :=
  (status_is status "failed" = true ->
   o = Raised (ValueError "Signature failed"))
  /\ (status_is status "success" = true ->
      forall out,
        get status "outputSignature" PNone = Ok out ->
        o = if truthy out
            then Returned (PDict [("signature", out)])
            else Raised (ValueError "Signature is undefined")).

(** The custody API, asked [c] after the events [h], answers the
    statuses [ss] in turn, all of them waiting, and then the terminal
    status [final], as long as the caller fetches and sleeps in turn. *)
Definition scripted (env : Env) (c : call) (h : list event)
    (ss : list pyval) (final : pyval) : Prop :=
  (forall j, j <= length ss ->
     api env (h ++ waits c (firstn j ss)) c = Ok (nth j ss final))
  /\ forallb waiting ss = true
  /\ terminal final = true.


(** The run came to an end: it returned or it raised. *)
Definition ended {A} (o : outcome A) : bool :=
  match o with
  | Returned _ => true
  | Raised _ => true
  | OutOfFuel => false
  end.

(** A loop body that polls with call [c]: answered with a waiting status
    it sleeps two seconds and goes round again, answered with a terminal
    status it leaves the loop at once. *)
Definition polls_with {A} (env : Env) (c : call) (body : M (option A)) : Prop :=
  forall h status,
    api env h c = Ok status ->
    (waiting status = true ->
     body h = (Returned None, [Api c (Ok status); Sleep 2]))
    /\ (terminal status = true ->
        snd (body h) = [Api c (Ok status)]
        /\ match fst (body h) with
           | Returned (Some _) => True
           | Raised _ => True
           | _ => False
           end).


Definition not_status_check (e : event) : bool := negb (is_status_check e).

Definition not_creation (e : event) : bool := negb (is_creation e).

(* ================================================================= *)
(** ** The rest of the module: locators, addresses, reads, the factory *)

(** A linked user: a dict from strings to strings. *)
Fixpoint lookup (k : string) (d : list (string * string)) : option string :=
  match d with
  | [] => None
  | (k', v) :: d' => if String.eqb k k' then Some v else lookup k d'
  end.

(** [get_locator(address, linked_user)].  An empty dict is falsy, like
    [None]; otherwise the keys are tried in the order email, phone,
    userId, and a linked user with none of them falls through to the
    address. *)
Definition get_locator_for
    (address : option string) (linked_user : option (list (string * string)))
  : result string :=
  match linked_user with
  | Some ((_ :: _) as d) =>
      match lookup "email" d with
      | Some email => Ok ("email:" ++ email ++ ":evm-smart-wallet")%string
      | None =>
          match lookup "phone" d with
          | Some phone => Ok ("phone:" ++ phone ++ ":evm-smart-wallet")%string
          | None =>
              match lookup "userId" d with
              | Some user_id =>
                  Ok ("userId:" ++ user_id ++ ":evm-smart-wallet")%string
              | None => get_locator address
              end
          end
      end
  | _ => get_locator address
  end.

(** What the module reaches through [web3], [self._w3], [self._ens] and
    [api_client.get_wallet], and Python's [str] on an exception. *)
Record Providers : Type := mkProviders {
  (** [web3._utils.validation.validate_address]. *)
  validate_address : string -> result unit;
  (** [self._ens.ens.resolve_name], [None] when the client was made
      without an ENS provider URL. *)
  ens_resolve_name : option (string -> result (option string));
  (** The attribute [self._w3.eth.read_contract], as a function of the
      address, ABI, function name and arguments of its dict argument;
      [None] when the [eth] module has no such attribute (web3's
      [AsyncEth], which [__init__] puts there, defines none). *)
  read_contract :
    option
      (string -> list pyval -> option string -> list pyval -> result pyval);
  (** [api_client.get_wallet(locator)["address"]]: [None] when the answer
      has no such key. *)
  get_wallet : string -> result (option string);
  (** [str(e)]. *)
  exception_text : exn -> string
}.

(** [EVMReadRequest]: a dict; [None] stands for a key that is not
    there. *)
Record EVMReadRequest : Type := mkRead {
  rr_address : string;
  rr_abi : option (list pyval);
  rr_functionName : option string;
  rr_args : option (list pyval)
}.

(** The options dict of [create_smart_wallet], as far as the client keeps
    it. *)
Record WalletOptions : Type := mkOptions {
  opt_address : option string;
  opt_linkedUser : option (list (string * string));
  opt_chain : string;
  opt_signer : Signer
}.

(** The kind and value of the first of the keys email, phone, userId a
    linked user has. *)
Definition linked_identity (d : list (string * string))
  : option (string * string) :=
  match lookup "email" d with
  | Some v => Some ("email", v)
  | None =>
      match lookup "phone" d with
      | Some v => Some ("phone", v)
      | None =>
          match lookup "userId" d with
          | Some v => Some ("userId", v)
          | None => None
          end
      end
  end.

(** The wallet a custody API call is about: its address or locator
    argument. *)
Definition call_wallet (c : call) : string :=
  match c with
  | create_transaction_for_smart_wallet a _ _ _ => a
  | approve_transaction l _ _ => l
  | check_transaction_status l _ => l
  | sign_message_for_smart_wallet a _ _ _ => a
  | sign_typed_data_for_smart_wallet a _ _ _ => a
  | approve_signature_for_smart_wallet _ a _ _ => a
  | check_signature_status _ a => a
  end.

(** Every custody API call among the events is about the wallet [w]. *)
Definition about_wallet (w : string) (e : event) : bool :=
  match e with
  | Api c _ => String.eqb (call_wallet c) w
  | _ => true
  end.

Section Chain.

Variable env : Env.
Variable web3 : Providers.

(** The body of the inner [try] of [resolve_address]. *)
Definition resolve_ens_name
    (resolve : string -> result (option string)) (address : string)
  : result string :=
  rbind (resolve address) (fun resolved =>
  if not_str resolved then
    Err (ValueError "ENS name could not be resolved")
  else
    to_checksum_address env
      (match resolved with Some a => a | None => "" end)).

(** The body of the outer [try] of [resolve_address]. *)
Definition checksum_if_valid (address : string) : result string :=
  rbind (validate_address web3 address)
        (fun _ => to_checksum_address env address).

(** [resolve_address].  [except ValueError] takes the exceptions written
    [ValueError _] and lets every other one through; [except Exception]
    takes them all. *)
Definition resolve_address (address : string) : result string :=
  match checksum_if_valid address with
  | Ok a => Ok a
  | Err (ValueError _) =>
      match ens_resolve_name web3 with
      | None => Err (ValueError "ENS provider is not configured")
      | Some resolve =>
          match resolve_ens_name resolve address with
          | Ok a => Ok a
          | Err e =>
              Err (ValueError
                     ("Failed to resolve ENS name: " ++ exception_text web3 e))
          end
      end
  | Err e => Err e
  end.

(** [read].  In the call [self._w3.eth.read_contract({...})] the callee
    is evaluated first, so that a missing attribute raises before the
    dict argument, and with it [resolve_address], is evaluated. *)
Definition read (request : EVMReadRequest) : result pyval :=
  if not_list (rr_abi request) then
    Err (ValueError "Read request must include ABI for EVM")
  else
    match read_contract web3 with
    | None => Err AttributeError
    | Some callee =>
        rbind (resolve_address (rr_address request)) (fun address =>
        rbind (callee address (or_nil (rr_abi request))
                 (rr_functionName request) (or_nil (rr_args request)))
              (fun r => Ok (PDict [("value", r)])))
    end.

(** [create_smart_wallet] of [smart_wallet_factory]. *)
Definition create_smart_wallet (options : WalletOptions)
  : result SmartWalletClient :=
  rbind (get_locator_for (opt_address options) (opt_linkedUser options))
    (fun locator =>
  rbind (get_wallet web3 locator) (fun wallet =>
  match wallet with
  | None => Err (KeyError (PStr "address"))
  | Some address =>
      SmartWalletClient_init address (opt_chain options) (opt_signer options)
  end)).

End Chain.

(* ================================================================= *)
(** ** The protocol of an operation *)

Definition creation_call (c : call) : bool :=
  match c with
  | create_transaction_for_smart_wallet _ _ _ _ => true
  | sign_message_for_smart_wallet _ _ _ _ => true
  | sign_typed_data_for_smart_wallet _ _ _ _ => true
  | _ => false
  end.

Definition approval_call (c : call) : bool :=
  match c with
  | approve_transaction _ _ _ => true
  | approve_signature_for_smart_wallet _ _ _ _ => true
  | _ => false
  end.

(** Where an operation stands: nothing done yet; the pending operation
    created; its message signed with the local key; the signature sent as
    approval; a status fetched (and whether it was a waiting one); slept
    after a status; or stopped by an exception that a custody API call or
    the local signing raised. *)
Inductive phase : Type :=
| Start
| Created
| Signed
| Approved
| Fetched (was_waiting : bool)
| Slept
| Failed (e : exn).

Definition live (p : phase) : bool :=
  match p with
  | Failed _ => false
  | _ => true
  end.

Definition or_failed {A} (r : result A) (p : phase) : phase :=
  match r with
  | Ok _ => p
  | Err e => Failed e
  end.

Definition fetched (r : result pyval) : phase :=
  match r with
  | Ok status => Fetched (waiting status)
  | Err e => Failed e
  end.

(** The events allowed in each phase, and the phase they lead to. *)
Definition phase_step (p : phase) (ev : event) : option phase :=
  match p, ev with
  | Start, Api c r =>
      if creation_call c then Some (or_failed r Created) else None
  | Created, Api c r =>
      if is_status_call c then Some (fetched r) else None
  | Created, LocalSign _ _ r => Some (or_failed r Signed)
  | Signed, Api c r =>
      if approval_call c then Some (or_failed r Approved) else None
  | Approved, Api c r =>
      if is_status_call c then Some (fetched r) else None
  | Fetched true, Sleep s => if Z.eqb s 2 then Some Slept else None
  | Slept, Api c r =>
      if is_status_call c then Some (fetched r) else None
  | _, _ => None
  end.

Fixpoint run_phase (p : phase) (t : list event) : option phase :=
  match t with
  | [] => Some p
  | ev :: t' =>
      match phase_step p ev with
      | Some q => run_phase q t'
      | None => None
      end
  end.

(** A run with outcome [o] and events [t] kept to the protocol: the
    events are allowed in their order, and if one of them was an
    exception from the custody API or from the local signing, it was the
    last, and the run raised that exception. *)
Definition protocol_run {A} (o : outcome A) (t : list event) : Prop :=
  match run_phase Start t with
  | Some (Failed e) => o = Raised e
  | Some _ => True
  | None => False
  end.

(** From phase [p], [m] keeps to the protocol; on return with [a] in
    phase [q], [Q a q] holds. *)
Definition follows {A} (p : phase) (m : M A) (Q : A -> phase -> Prop) : Prop :=
  forall h,
    match run_phase p (snd (m h)) with
    | Some (Failed e) => fst (m h) = Raised e
    | Some q => forall a, fst (m h) = Returned a -> Q a q
    | None => False
    end.

(** The phases in which a polling loop is entered or re-entered. *)
Definition may_fetch (p : phase) : bool :=
  match p with
  | Created => true
  | Approved => true
  | Slept => true
  | _ => false
  end.

(** How many creation requests, local signatures and approvals the
    protocol still allows from a phase. *)
Definition creations_left (p : phase) : nat :=
  match p with
  | Start => 1
  | _ => 0
  end.

Definition signatures_left (p : phase) : nat :=
  match p with
  | Start => 1
  | Created => 1
  | _ => 0
  end.

Definition is_sleep (e : event) : bool :=
  match e with
  | Sleep _ => true
  | _ => false
  end.

Definition approvals_left (p : phase) : nat :=
  match p with
  | Start => 1
  | Created => 1
  | Signed => 1
  | _ => 0
  end.

(** Approvals a phase allows beyond the signatures still to come, and
    sleeps beyond the status fetches still to come. *)
Definition approvals_due (p : phase) : nat :=
  match p with
  | Signed => 1
  | _ => 0
  end.

Definition sleeps_due (p : phase) : nat :=
  match p with
  | Fetched true => 1
  | _ => 0
  end.

(* ================================================================= *)
(** ** The Solana wallet: decompiling a versioned transaction *)

(** [solders] data as [decompile_versioned_transaction_to_instructions]
    reads it.  Indices are unsigned bytes there, naturals here. *)
Record CompiledInstruction : Type := mkCompiled {
  program_id_index : nat;
  ci_accounts : list nat;
  ci_data : string
}.

Record AccountMeta : Type := mkMeta {
  meta_pubkey : string;
  meta_is_signer : bool;
  meta_is_writable : bool
}.

Record Instruction : Type := mkInstruction {
  ix_program_id : string;
  ix_data : string;
  ix_accounts : list AccountMeta
}.

(** The two classes of message a [VersionedTransaction] carries, both
    imported by the module.  They differ in one method the function
    calls: a legacy [Message] has [is_writable], a [MessageV0] has
    [is_maybe_writable] in its place and no attribute [is_writable]. *)
Inductive MessageKind : Type :=
| LegacyMessage
| MessageV0.

(** [versioned_transaction.message]: its class, its account keys and
    compiled instructions, and its methods [is_signer] and [is_writable]
    (the latter is there to be called on a legacy [Message] only). *)
Record VersionedMessage : Type := mkMessage {
  message_kind : MessageKind;
  account_keys : list string;
  instructions : list CompiledInstruction;
  is_signer : nat -> bool;
  is_writable : nat -> bool
}.

(** [message.is_writable(account_idx)]: the attribute lookup raises on a
    [MessageV0]. *)
Definition call_is_writable (message : VersionedMessage) (account_idx : nat)
  : result bool :=
  match message_kind message with
  | LegacyMessage => Ok (is_writable message account_idx)
  | MessageV0 => Err AttributeError
  end.

(** [keys[i]] on a list, for an index that is not negative. *)
Definition index {A} (l : list A) (i : nat) : result A :=
  match nth_error l i with
  | Some x => Ok x
  | None => Err IndexError
  end.

(** The body of the inner loop: one [AccountMeta] per account index. *)
Definition account_meta (message : VersionedMessage) (account_idx : nat)
  : result AccountMeta :=
  rbind (index (account_keys message) account_idx) (fun pubkey =>
  let signer_flag := is_signer message account_idx in
  rbind (call_is_writable message account_idx) (fun writable_flag =>
  Ok (mkMeta pubkey signer_flag writable_flag))).

(** The body of the outer loop. *)
Definition decompile_instruction
    (message : VersionedMessage) (compiled_ix : CompiledInstruction)
  : result Instruction :=
  rbind (index (account_keys message) (program_id_index compiled_ix))
    (fun program_id =>
  rbind (map_result (account_meta message) (ci_accounts compiled_ix))
    (fun accounts =>
  Ok (mkInstruction program_id (ci_data compiled_ix) accounts))).

Definition decompile_versioned_transaction_to_instructions
    (message : VersionedMessage) : result (list Instruction) :=
  map_result (decompile_instruction message) (instructions message).

(** Every index of a compiled instruction points into the account keys. *)
Definition indices_in_range
    (message : VersionedMessage) (compiled_ix : CompiledInstruction) : bool :=
  Nat.ltb (program_id_index compiled_ix) (length (account_keys message))
  && forallb (fun i => Nat.ltb i (length (account_keys message)))
       (ci_accounts compiled_ix).

(** The compiled instruction lists no account, so that the inner loop
    has nothing to do. *)
Definition no_accounts (compiled_ix : CompiledInstruction) : bool :=
  match ci_accounts compiled_ix with
  | [] => true
  | _ :: _ => false
  end.

(** The message can be asked [is_writable]. *)
Definition has_is_writable (message : VersionedMessage) : bool :=
  match message_kind message with
  | LegacyMessage => true
  | MessageV0 => false
  end.

(** What decompiling needs of one compiled instruction: indices in range,
    and a message with [is_writable] as soon as there is an account to
    describe. *)
Definition decompilable
    (message : VersionedMessage) (compiled_ix : CompiledInstruction) : bool :=
  indices_in_range message compiled_ix
  && (has_is_writable message || no_accounts compiled_ix).

(* ================================================================= *)
(** ** The Jupiter plugin: [get_quote] and what it reports *)

(** An exception as the handlers of [get_quote] look at it: its status
    and message when it is an [aiohttp.ClientResponseError], and its
    [str]. *)
Record raised : Type := mkRaised {
  response_error : option (Z * string);
  raised_text : string
}.

(** [Exception(msg)]. *)
Definition Exception (msg : string) : raised := mkRaised None msg.

Inductive tried (A : Type) : Type :=
| Got (a : A)
| Threw (r : raised).
Arguments Got {A} a.
Arguments Threw {A} r.

Definition tbind {A B} (t : tried A) (k : A -> tried B) : tried B :=
  match t with
  | Got a => k a
  | Threw r => Threw r
  end.

(** The fields of a validated [GetQuoteParameters] that the request
    uses; [swapMode] is the enum's [value]. *)
Record GetQuoteParameters : Type := mkQuoteParameters {
  inputMint : string;
  outputMint : string;
  amount : Z;
  swapMode : string;
  slippageBps : option Z
}.

(** An [aiohttp] response: its status, and what [text()] and [json()]
    give or raise. *)
Record Response : Type := mkResponse {
  status : Z;
  text : tried string;
  json : tried pyval
}.

(** What [get_quote] calls but does not define. *)
Record Jupiter : Type := mkJupiter {
  (** [GetQuoteParameters.model_validate]. *)
  validate_parameters : pyval -> tried GetQuoteParameters;
  (** [session.get(url, params=request_params)]. *)
  http_get : string -> list (string * string) -> tried Response;
  (** [QuoteResponse.model_validate]. *)
  validate_quote : pyval -> tried pyval;
  (** [str(v)] of a JSON value inside an f-string. *)
  value_text : pyval -> string;
  (** What a Python exception raised by [.get] looks like to a handler. *)
  as_raised : exn -> raised
}.

Definition base_url : string := "https://quote-api.jup.ag/v6".

Definition request_params (params : GetQuoteParameters)
  : list (string * string) :=
  [("inputMint", inputMint params);
   ("outputMint", outputMint params);
   ("amount", str (amount params));
   ("swapMode", swapMode params)]
  ++ match slippageBps params with
     | Some bps => [("slippageBps", str bps)]
     | None => []
     end.

(** The [try] block under [if response.status != 200]: it ends in a
    [raise] on every path. *)
Definition report_error_data (j : Jupiter) (response : Response)
  : tried unit :=
  tbind (json response) (fun error_data =>
  match get error_data "error" (PStr "Unknown error") with
  | Ok v => Threw (Exception ("Failed to get quote: " ++ value_text j v))
  | Err e => Threw (as_raised j e)
  end).

(** The body of the outer [try] of [get_quote]. *)
Definition request_quote (j : Jupiter) (parameters : pyval) : tried pyval :=
  tbind (validate_parameters j parameters) (fun params =>
  tbind (http_get j (base_url ++ "/quote") (request_params params))
    (fun response =>
  tbind (text response) (fun response_text =>
  let rest :=
    tbind (json response) (fun response_data =>
    validate_quote j response_data) in
  if negb (Z.eqb (status response) 200) then
    match report_error_data j response with
    | Got _ => rest
    | Threw _ =>
        Threw (Exception ("Failed to get quote: " ++ response_text))
    end
  else rest))).

(** [get_quote]: the body, under its two handlers. *)
Definition get_quote (j : Jupiter) (parameters : pyval) : tried pyval :=
  match request_quote j parameters with
  | Got quote => Got quote
  | Threw error =>
      match response_error error with
      | Some (error_status, error_message) =>
          if negb (Z.eqb error_status 404) then
            Threw (Exception
                     ("Failed to get quote: HTTP " ++ str error_status
                      ++ " - " ++ error_message))
          else
            Threw (Exception ("Failed to get quote: " ++ raised_text error))
      | None =>
          Threw (Exception ("Failed to get quote: " ++ raised_text error))
      end
  end.

(* ================================================================= *)
(** ** More doubles for the worked scenarios *)

(** Providers that take an address for valid when it starts with ["0x"],
    resolve the one name ["alice.eth"], and write any exception as its
    message. *)
Definition demo_providers : Providers :=
  mkProviders
    (fun a => if String.prefix "0x" a then Ok tt
              else Err (ValueError "not an address"))
    (Some (fun name => if String.eqb name "alice.eth"
                       then Ok (Some "0xA11CE") else Ok None))
    (Some (fun _ _ _ _ => Ok (PInt 7)))
    (fun _ => Ok (Some "0xWALLET"))
    (fun e => match e with
              | ValueError m => m
              | External m => m
              | _ => "error"
              end).

(** The same providers around web3's own [eth] module, which has no
    [read_contract]. *)
Definition web3_providers : Providers :=
  mkProviders
    (validate_address demo_providers)
    (ens_resolve_name demo_providers)
    None
    (get_wallet demo_providers)
    (exception_text demo_providers).

(** A read of ["balanceOf"] at an ENS name. *)
Definition demo_read : EVMReadRequest :=
  mkRead "alice.eth" (Some [PDict [("name", PStr "balanceOf")]])
    (Some "balanceOf") None.

Definition linked_by_email : list (string * string) :=
  [("email", "ann@example.org"); ("phone", "+100")].

Definition linked_by_phone : list (string * string) :=
  [("phone", "+100")].

(** A response with status 400 whose body names an error. *)
Definition bad_request : Response :=
  mkResponse 400 (Got "no route") (Got (PDict [("error", PStr "NO_ROUTE")])).

Definition good_response : Response :=
  mkResponse 200 (Got "{}") (Got (PDict [("outAmount", PStr "42")])).

Definition demo_quote_parameters : GetQuoteParameters :=
  mkQuoteParameters "MINT-A" "MINT-B" 1000 "ExactIn" (Some 50%Z).

Definition demo_jupiter (response : Response) : Jupiter :=
  mkJupiter
    (fun _ => Got demo_quote_parameters)
    (fun _ _ => Got response)
    (fun data => Got data)
    (fun v => match v with PStr s => s | _ => "?" end)
    (fun _ => Exception "error").

(** A legacy message with two account keys and two compiled instructions,
    the second of which points past the keys when [bad] is set. *)
Definition demo_message (bad : bool) : VersionedMessage :=
  mkMessage LegacyMessage ["KEY-0"; "KEY-1"]
    [mkCompiled 1 [0; 1] "data-a";
     mkCompiled 0 [if bad then 2 else 1] "data-b"]
    (fun i => Nat.eqb i 0)
    (fun i => Nat.leb i 1).

(** The same message as a [MessageV0], all indices in range. *)
Definition demo_message_v0 : VersionedMessage :=
  mkMessage MessageV0 ["KEY-0"; "KEY-1"]
    [mkCompiled 1 [0; 1] "data-a"; mkCompiled 0 [1] "data-b"]
    (fun i => Nat.eqb i 0)
    (fun i => Nat.leb i 1).

(** A transaction that calls a contract, and one that names an ABI but no
    function. *)
Definition call_tx : EVMTransaction :=
  mkTx "0xC0DE" (Some [PDict [("name", PStr "approve")]]) (Some "approve")
    (Some [PInt 1]) None.

Definition nameless_tx : EVMTransaction :=
  mkTx "0xC0DE" (Some [PDict [("name", PStr "approve")]]) None None None.

(** A key-held signer whose secret key is empty. *)
Definition keyless_wallet : SmartWalletClient :=
  mkClient "0xWALLET" "base-sepolia" (KeyPairSigner "" "0xS1GNER") "0xWALLET".

(** A created signature request awaiting the approval of ["0xBEEF"]. *)
Definition created_signature_pending : pyval :=
  PDict [("id", PStr "sig-1");
         ("approvals",
          PDict [("pending", PList [PDict [("message", PStr "0xBEEF")]])])].

(* ================================================================= *)
(** ** Properties *)

Section Properties.

Variable env : Env.

(** *** Traces *)

Lemma last_event_cons (e : event) (t : list event) :
  last_event (e :: t) =
  match last_event t with
  | Some x => Some x
  | None => Some e
  end.
Proof.
  revert e. induction t as [|x t IH]; intros e; [reflexivity|].
  change (last_event (e :: x :: t)) with (last_event (x :: t)).
  rewrite (IH x). destruct (last_event t); reflexivity.
Qed.

Lemma last_event_app (t1 t2 : list event) :
  last_event (t1 ++ t2) =
  match last_event t2 with
  | Some e => Some e
  | None => last_event t1
  end.
Proof.
  induction t1 as [|e t1 IH].
  - simpl. destruct (last_event t2); reflexivity.
  - rewrite <- app_comm_cons, !last_event_cons, IH.
    destruct (last_event t2), (last_event t1); reflexivity.
Qed.

Lemma last_event_snoc t ev : last_event (t ++ [ev]) = Some ev.
Proof. rewrite last_event_app. reflexivity. Qed.

Lemma last_event_forallb (P : event -> bool) (t : list event) (e : event) :
  forallb P t = true -> last_event t = Some e -> P e = true.
Proof.
  induction t as [|x t IH]; simpl; [discriminate|].
  intros H L. apply andb_true_iff in H. destruct H as [Hx Ht].
  destruct t.
  - inversion L. subst. exact Hx.
  - apply IH; assumption.
Qed.

Lemma count_none (p : event -> bool) (t : list event) :
  forallb (fun e => negb (p e)) t = true -> count p t = 0.
Proof.
  unfold count. induction t as [|e t IH]; simpl; [reflexivity|].
  intros H. apply andb_true_iff in H. destruct H as [He Ht].
  destruct (p e); [discriminate|]. apply IH, Ht.
Qed.

(** *** The monad *)

Lemma quiet_ret {A} P (a : A) : quiet P (ret a).
Proof. intros h. reflexivity. Qed.

Lemma quiet_raise {A} P e : quiet P (@raise A e).
Proof. intros h. reflexivity. Qed.

Lemma quiet_lift {A} P (r : result A) : quiet P (lift r).
Proof. destruct r; intros h; reflexivity. Qed.

Lemma quiet_bind {A B} P (m : M A) (k : A -> M B) :
  quiet P m -> (forall a, quiet P (k a)) -> quiet P (bind m k).
Proof.
  intros Hm Hk h. specialize (Hm h). unfold bind.
  destruct (m h) as [[a|e|] t1]; simpl in *; try assumption.
  specialize (Hk a (h ++ t1)). destruct (k a (h ++ t1)) as [o t2]. simpl in *.
  rewrite forallb_app, Hm, Hk. reflexivity.
Qed.

Lemma quiet_api_call P c :
  (forall r, P (Api c r) = true) -> quiet P (api_call env c).
Proof. intros H h. simpl. rewrite H. reflexivity. Qed.

Lemma quiet_local_sign P account to_sign :
  (forall a m r, P (LocalSign a m r) = true) ->
  quiet P (local_sign account to_sign).
Proof. intros H h. simpl. rewrite H. reflexivity. Qed.

Lemma quiet_sleep P s : P (Sleep s) = true -> quiet P (sleep s).
Proof. intros H h. simpl. rewrite H. reflexivity. Qed.

Lemma quiet_while_true {A} P (body : M (option A)) fuel :
  quiet P body -> quiet P (while_true fuel body).
Proof.
  intros Hb. induction fuel as [|fuel IH]; simpl.
  - intros h. reflexivity.
  - apply quiet_bind; [assumption|]. intros [a|]; [apply quiet_ret | apply IH].
Qed.

(** A part that fetches no status hands the final status on to what
    follows it. *)
Lemma on_final_status_bind {A B} (R : pyval -> outcome B -> Prop)
    (m : M A) (k : A -> M B) :
  quiet not_status_check m ->
  (forall a, on_final_status R (k a)) ->
  on_final_status R (bind m k).
Proof.
  intros Hm Hk h c status. specialize (Hm h). unfold bind.
  destruct (m h) as [[a|e|] t1]; simpl in *.
  - specialize (Hk a (h ++ t1) c status).
    destruct (k a (h ++ t1)) as [o t2]. simpl in *.
    rewrite last_event_app. destruct (last_event t2) as [e2|] eqn:L2.
    + intros E. inversion E. subst. auto.
    + intros L1 Hc. apply (last_event_forallb _ _ _ Hm) in L1.
      unfold not_status_check in L1. simpl in L1. rewrite Hc in L1. discriminate.
  - intros L1 Hc. apply (last_event_forallb _ _ _ Hm) in L1.
    unfold not_status_check in L1. simpl in L1. rewrite Hc in L1. discriminate.
  - intros L1 Hc. apply (last_event_forallb _ _ _ Hm) in L1.
    unfold not_status_check in L1. simpl in L1. rewrite Hc in L1. discriminate.
Qed.

Lemma on_final_status_while_true {A} (R : pyval -> outcome A -> Prop)
    (body : M (option A)) fuel :
  body_on_final_status R body ->
  on_final_status R (while_true fuel body).
Proof.
  intros Hb. induction fuel as [|fuel IH]; intros h c status; simpl.
  - discriminate.
  - specialize (Hb h c status). unfold bind.
    destruct (body h) as [[[a|]|e|] t1]; simpl in *.
    + rewrite app_nil_r. exact Hb.
    + specialize (IH (h ++ t1) c status).
      destruct (while_true fuel body (h ++ t1)) as [o t2]. simpl in *.
      rewrite last_event_app. destruct (last_event t2) as [e2|] eqn:L2.
      * intros E. inversion E. subst. auto.
      * intros L1 Hc. destruct (Hb L1 Hc).
    + exact Hb.
    + intros L1 Hc. destruct (Hb L1 Hc).
Qed.

Lemma bind_ret_l {A B} (a : A) (k : A -> M B) h : bind (ret a) k h = k a h.
Proof.
  unfold bind, ret. rewrite app_nil_r. destruct (k a h); reflexivity.
Qed.

Lemma bind_raise_l {A B} (e : exn) (k : A -> M B) h :
  bind (raise e) k h = (Raised e, []).
Proof. reflexivity. Qed.

Lemma bind_lift_ok {A B} (a : A) (k : A -> M B) h :
  bind (lift (Ok a)) k h = k a h.
Proof. apply bind_ret_l. Qed.

Lemma bind_lift_err {A B} (e : exn) (k : A -> M B) h :
  bind (lift (Err e)) k h = (Raised e, []).
Proof. reflexivity. Qed.

Lemma bind_sleep {B} (s : Z) (k : unit -> M B) h :
  bind (sleep s) k h
  = (fst (k tt (h ++ [Sleep s])), Sleep s :: snd (k tt (h ++ [Sleep s]))).
Proof.
  unfold bind, sleep. destruct (k tt (h ++ [Sleep s])); reflexivity.
Qed.

Lemma bind_api_call {B} (c : call) (k : pyval -> M B) h :
  bind (api_call env c) k h
  = match api env h c with
    | Ok v =>
        (fst (k v (h ++ [Api c (Ok v)])),
         Api c (Ok v) :: snd (k v (h ++ [Api c (Ok v)])))
    | Err e => (Raised e, [Api c (Err e)])
    end.
Proof.
  unfold bind, api_call. destruct (api env h c) as [v|e]; [|reflexivity].
  destruct (k v (h ++ [Api c (Ok v)])); reflexivity.
Qed.

Lemma bind_local_sign {B} (account : Account) (m : pyval)
    (k : string -> M B) h :
  bind (local_sign account m) k h
  = match account_sign_hex account m with
    | Ok s =>
        (fst (k s (h ++ [LocalSign (account_address account) m (Ok s)])),
         LocalSign (account_address account) m (Ok s)
           :: snd (k s (h ++ [LocalSign (account_address account) m (Ok s)])))
    | Err e => (Raised e, [LocalSign (account_address account) m (Err e)])
    end.
Proof.
  unfold bind, local_sign.
  destruct (account_sign_hex account m) as [s|e]; [|reflexivity].
  destruct (k s (h ++ _)); reflexivity.
Qed.

(** One step of symbolic execution of a [bind]. *)
Ltac mstep :=
  cbv beta;
  match goal with
  | |- context [bind (lift (Ok _)) _ _] => rewrite bind_lift_ok
  | |- context [bind (lift (Err _)) _ _] => rewrite bind_lift_err
  | |- context [bind (ret _) _ _] => rewrite bind_ret_l
  | |- context [bind (raise _) _ _] => rewrite bind_raise_l
  | |- context [bind (sleep _) _ _] => rewrite bind_sleep
  | |- context [bind (api_call _ _) _ _] => rewrite bind_api_call
  | |- context [bind (local_sign _ _) _ _] => rewrite bind_local_sign
  end;
  cbv beta.

Lemma quiet_bind_ret {A B} P (a : A) (k : A -> M B) :
  quiet P (k a) -> quiet P (bind (ret a) k).
Proof. intros H h. rewrite bind_ret_l. apply H. Qed.

Lemma quiet_bind_lift {A B} P (r : result A) (k : A -> M B) :
  (forall a, r = Ok a -> quiet P (k a)) -> quiet P (bind (lift r) k).
Proof.
  intros H. destruct r as [a|e]; simpl.
  - apply quiet_bind_ret, H. reflexivity.
  - intros h. reflexivity.
Qed.

Ltac quiet_step :=
  match goal with
  | |- quiet _ (bind (ret _) _) => apply quiet_bind_ret
  | |- quiet _ (bind (lift _) _) => apply quiet_bind_lift; intros ? ?
  | |- quiet _ (bind _ _) => apply quiet_bind; [|intros ?]
  | |- quiet _ (ret _) => apply quiet_ret
  | |- quiet _ (raise _) => apply quiet_raise
  | |- quiet _ (lift _) => apply quiet_lift
  | |- quiet _ (api_call _ _) => apply quiet_api_call; intros; reflexivity
  | |- quiet _ (local_sign _ _) => apply quiet_local_sign; intros; reflexivity
  | |- quiet _ (sleep _) => apply quiet_sleep; reflexivity
  | |- quiet _ (while_true _ _) => apply quiet_while_true
  | |- quiet _ (if ?b then _ else _) => destruct b
  | |- quiet _ (match ?x with _ => _ end) => destruct x
  end.

Ltac quiet_tac :=
  unfold transaction_poll_body, signature_poll_body,
    require_signer_account, require_secret_key;
  repeat quiet_step.

(** *** Call building *)

Lemma or_zero_some (v : Z) : or_zero (Some v) = v.
Proof. simpl. destruct (Z.eqb_spec v 0); congruence. Qed.

(** [str] writes an integer as the decimal numeral that reads back as
    it. *)
Lemma str_reads_back (z : Z) : read_decimal (str z) = Some z.
Proof.
  unfold read_decimal, str. rewrite NilZero.isi.
  - simpl. rewrite DecimalZ.of_to. reflexivity.
  - destruct z as [|p|p]; simpl; try discriminate.
    intros H. inversion H as [H1]. revert H1. apply Unsigned.to_uint_nonnil.
  - destruct z as [|p|p]; simpl; try discriminate.
    intros H. inversion H as [H1]. revert H1. apply Unsigned.to_uint_nonnil.
Qed.

(** C3.  A transaction without a contract call (no [abi]) is built into a
    call with [data = "0x"] whose [value] is [str] of the transaction's
    value, a decimal numeral that reads back as that value, whatever the
    function name and arguments; both for the builder itself and for the
    way [_send_batch_of_transactions] calls it. *)
Theorem build_plain_transfer
    (recipient : string) (function_name : option string)
    (args : option (list pyval)) (v : Z) :
  build_transaction_data env recipient None function_name args (Some v)
    = Ok (mkCall recipient (str v) "0x")
  /\ call_of_transaction env (mkTx recipient None function_name args (Some v))
    = Ok (mkCall recipient (str v) "0x")
  /\ read_decimal (str v) = Some v.
Proof.
  unfold call_of_transaction, build_transaction_data. cbn -[or_zero str].
  rewrite or_zero_some. split; [|split]; try reflexivity.
  apply str_reads_back.
Qed.

(** C4, as amended.  With a non-empty [abi] and no function name ([None],
    or the empty string) the builder raises
    [ValueError("Function name is required when ABI is provided")]: no
    call is produced, and neither the checksum routine nor the encoder is
    reached. *)
Theorem build_abi_without_function_name
    (recipient : string) (entry : pyval) (abi : list pyval)
    (args : option (list pyval)) (v : option Z) :
  build_transaction_data env recipient (Some (entry :: abi)) None args v
    = Err (ValueError "Function name is required when ABI is provided")
  /\ build_transaction_data env recipient (Some (entry :: abi)) (Some "") args v
    = Err (ValueError "Function name is required when ABI is provided").
Proof. split; reflexivity. Qed.

(** C10.  A [value] that is omitted or [None] is rendered as ["0"] (in the
    plain branch and, when the encoder succeeds, in the ABI branch), a
    transaction without a ["value"] key likewise; and an [abi] that is the
    empty list gives exactly what an absent [abi] gives: a plain transfer
    with [data = "0x"], with no demand on the function name. *)
Theorem build_defaults
    (recipient : string) (abi : option (list pyval))
    (function_name : option string) (args : option (list pyval))
    (v : option Z) :
  build_transaction_data env recipient None function_name args None
    = Ok (mkCall recipient "0" "0x")
  /\ match build_transaction_data env recipient abi function_name args None with
     | Ok c => value c = "0"
     | Err _ => True
     end
  /\ call_of_transaction env (mkTx recipient None function_name args None)
     = Ok (mkCall recipient "0" "0x")
  /\ build_transaction_data env recipient (Some []) function_name args v
     = build_transaction_data env recipient None function_name args v
  /\ build_transaction_data env recipient (Some []) function_name args v
     = Ok (mkCall recipient (str (or_zero v)) "0x").
Proof.
  repeat split; try reflexivity.
  unfold build_transaction_data.
  destruct (not_list abi); [reflexivity|].
  destruct (not_str function_name); [exact I|].
  destruct (to_checksum_address env recipient) as [a|e]; simpl; [|exact I].
  destruct (encode_function_hex env a (or_nil abi) _ (or_nil args));
    simpl; [reflexivity | exact I].
Qed.

(** *** Typed data needs a key *)

(** C8.  With a custodial signer [sign_typed_data] raises
    [ValueError("Keypair signer is required for typed data signing")]
    before anything else: its trace is empty, so the custody API has not
    been called at all, whatever it would have answered. *)
Theorem sign_typed_data_custodial
    (fuel : nat) (self : SmartWalletClient) (typed_data : pyval)
    (h : list event) :
  has_custodial_signer self = true ->
  sign_typed_data env fuel self typed_data h
  = (Raised (ValueError "Keypair signer is required for typed data signing"),
     [])
  /\ count is_api_call (snd (sign_typed_data env fuel self typed_data h)) = 0.
Proof.
  unfold has_custodial_signer, sign_typed_data.
  destruct (_signer self) as [s|k a]; intros Hc.
  - split; reflexivity.
  - discriminate Hc.
Qed.

(** *** Custodial signers *)

Lemma custodial_send_quiet fuel self txs :
  has_custodial_signer self = true ->
  quiet custodial_event (_send_batch_of_transactions env fuel self txs).
Proof.
  intros Hc. unfold _send_batch_of_transactions. rewrite Hc. simpl negb.
  cbv iota. quiet_tac.
Qed.

Lemma custodial_sign_message_quiet fuel self message :
  has_custodial_signer self = true ->
  quiet custodial_event (sign_message env fuel self message).
Proof.
  intros Hc. unfold sign_message. rewrite Hc. simpl negb. cbv iota.
  quiet_tac.
Qed.

(** *** The polling loops and the final status *)

Lemma eq_str_true (v : pyval) (s : string) : eq_str v s = true -> v = PStr s.
Proof.
  destruct v; simpl; try discriminate.
  intros H. apply String.eqb_eq in H. congruence.
Qed.

(** A [get] that found something truthy found it under the key. *)
Lemma get_truthy_getitem (v : pyval) (k : string) (x : pyval) :
  get v k PNone = Ok x -> truthy x = true -> getitem v k = Ok x.
Proof.
  destruct v; simpl; try discriminate.
  destruct (assoc k d); intros H T; inversion H; subst;
    [reflexivity | discriminate].
Qed.

Lemma transaction_body_final_status self response :
  body_on_final_status transaction_outcome
    (transaction_poll_body env self response).
Proof.
  intros h c status. unfold transaction_poll_body.
  destruct (getitem response "id") as [id|e]; mstep; [|discriminate].
  mstep.
  destruct (api env h (check_transaction_status (_locator self) id))
    as [status0|e] eqn:EA; simpl.
  2:{ intros E. inversion E. }
  destruct (getitem status0 "status") as [st|e] eqn:ES; mstep.
  2:{ simpl. intros E _. inversion E. subst. intros s tx_id _ Hs.
      unfold status_is in Hs. rewrite ES in Hs. discriminate. }
  destruct (eq_str st "success" || eq_str st "failed") eqn:ET.
  2:{ repeat mstep. simpl. discriminate. }
  destruct (get status0 "onChain" (PDict [])) as [oc|e] eqn:EO; mstep.
  2:{ simpl. intros E _. inversion E. subst. intros s tx_id _ _ Hh.
      unfold transaction_hash in Hh. rewrite EO in Hh. discriminate. }
  destruct (get oc "txId" (PStr "")) as [tx|e] eqn:EX; mstep.
  2:{ simpl. intros E _. inversion E. subst. intros s tx_id _ _ Hh.
      unfold transaction_hash in Hh. rewrite EO in Hh. simpl in Hh.
      rewrite EX in Hh. discriminate. }
  mstep. simpl.
  intros E _. inversion E. subst. intros s tx_id _ Hs Hh.
  unfold status_is in Hs. rewrite ES in Hs. apply eq_str_true in Hs.
  unfold transaction_hash in Hh. rewrite EO in Hh. simpl in Hh.
  rewrite EX in Hh. congruence.
Qed.

Lemma signature_body_final_status self signature_id :
  body_on_final_status signature_outcome
    (signature_poll_body env self signature_id).
Proof.
  intros h c status. unfold signature_poll_body.
  destruct signature_id as [id|e]; mstep; [|discriminate].
  mstep.
  destruct (api env h (check_signature_status id (_address self)))
    as [status0|e] eqn:EA; simpl.
  2:{ intros E. inversion E. }
  destruct (getitem status0 "status") as [st|e] eqn:ES; mstep.
  2:{ simpl. intros E _. inversion E. subst.
      unfold signature_outcome, status_is. rewrite ES. split; discriminate. }
  destruct (eq_str st "success") eqn:ESu.
  - destruct (get status0 "outputSignature" PNone) as [out|e] eqn:EO; mstep.
    2:{ simpl. intros E _. inversion E. subst.
        unfold signature_outcome, status_is. rewrite ES, ESu.
        split; [|intros _ out Ho; rewrite EO in Ho; discriminate].
        apply eq_str_true in ESu. subst. discriminate. }
    destruct (truthy out) eqn:Tr; cbn [negb].
    + rewrite (get_truthy_getitem _ _ _ EO Tr). mstep. simpl.
      intros E _. inversion E. subst.
      unfold signature_outcome, status_is. rewrite ES, ESu.
      split.
      * apply eq_str_true in ESu. subst. discriminate.
      * intros _ out' Ho. rewrite EO in Ho. inversion Ho. subst.
        rewrite Tr. reflexivity.
    + simpl. intros E _. inversion E. subst.
      unfold signature_outcome, status_is. rewrite ES, ESu.
      split.
      * apply eq_str_true in ESu. subst. discriminate.
      * intros _ out' Ho. rewrite EO in Ho. inversion Ho. subst.
        rewrite Tr. reflexivity.
  - mstep. destruct (eq_str st "failed") eqn:EF.
    + simpl. intros E _. inversion E. subst.
      unfold signature_outcome, status_is. rewrite ES, ESu, EF.
      split; [reflexivity | discriminate].
    + repeat mstep. simpl. discriminate.
Qed.

Lemma transaction_body_final_result self response :
  body_on_final_status transaction_result
    (transaction_poll_body env self response).
Proof.
  intros h c status. unfold transaction_poll_body.
  destruct (getitem response "id") as [id|e]; mstep; [|discriminate].
  mstep.
  destruct (api env h (check_transaction_status (_locator self) id))
    as [status0|e] eqn:EA; simpl.
  2:{ intros E. inversion E. }
  destruct (getitem status0 "status") as [st|e] eqn:ES; mstep.
  2:{ simpl. intros E _. inversion E. subst. intros s _ Hs.
      unfold status_is in Hs. rewrite ES in Hs. discriminate. }
  destruct (eq_str st "success" || eq_str st "failed") eqn:ET.
  2:{ repeat mstep. simpl. discriminate. }
  destruct (get status0 "onChain" (PDict [])) as [oc|e] eqn:EO; mstep.
  2:{ simpl. intros E _. inversion E. subst. intros s _ _.
      unfold transaction_hash. rewrite EO. reflexivity. }
  destruct (get oc "txId" (PStr "")) as [tx|e] eqn:EX; mstep.
  2:{ simpl. intros E _. inversion E. subst. intros s _ _.
      unfold transaction_hash. rewrite EO. simpl. rewrite EX. reflexivity. }
  mstep. simpl.
  intros E _. inversion E. subst. intros s _ Hs.
  unfold status_is in Hs. rewrite ES in Hs. apply eq_str_true in Hs.
  unfold transaction_hash. rewrite EO. simpl. rewrite EX. congruence.
Qed.

Lemma send_final_result fuel self txs :
  on_final_status transaction_result
    (_send_batch_of_transactions env fuel self txs).
Proof.
  unfold _send_batch_of_transactions.
  repeat (apply on_final_status_bind; [quiet_tac | intros ?]).
  apply on_final_status_while_true, transaction_body_final_result.
Qed.

(** The hash of a status that has a ["status"]: [""] without an
    ["onChain"], the ["txId"] of an ["onChain"] that is a dict ([""]
    when it has none), and an [AttributeError] for any other
    ["onChain"], [None] among them. *)
Lemma transaction_hash_cases status s :
  status_is status s = true ->
  exists d,
    status = PDict d
    /\ transaction_hash status
       = match assoc "onChain" d with
         | None => Ok (PStr "")
         | Some (PDict on_chain) =>
             Ok (match assoc "txId" on_chain with
                 | Some tx_id => tx_id
                 | None => PStr ""
                 end)
         | Some _ => Err AttributeError
         end.
Proof.
  unfold status_is. destruct status as [| | | | |d]; simpl; try discriminate.
  intros _. exists d. split; [reflexivity|].
  unfold transaction_hash. simpl.
  destruct (assoc "onChain" d) as [[| | | | |oc]|]; simpl; try reflexivity.
  destruct (assoc "txId" oc); reflexivity.
Qed.

Lemma sign_message_final_status fuel self message :
  on_final_status signature_outcome (sign_message env fuel self message).
Proof.
  unfold sign_message.
  repeat (apply on_final_status_bind; [quiet_tac | intros ?]).
  apply on_final_status_while_true, signature_body_final_status.
Qed.

Lemma sign_typed_data_final_status fuel self typed_data :
  on_final_status signature_outcome
    (sign_typed_data env fuel self typed_data).
Proof.
  unfold sign_typed_data. destruct (_signer self) as [s|k a].
  - intros h c status. discriminate.
  - repeat (apply on_final_status_bind; [quiet_tac | intros ?]).
    apply on_final_status_while_true, signature_body_final_status.
Qed.

(** *** One polling cycle *)

Lemma transaction_body_polls_with self response id :
  getitem response "id" = Ok id ->
  polls_with env (check_transaction_status (_locator self) id)
    (transaction_poll_body env self response).
Proof.
  intros Hid h status HA. unfold transaction_poll_body.
  rewrite Hid. repeat mstep. rewrite HA. split.
  - intros W. unfold waiting in W.
    destruct (getitem status "status") as [st|e]; [|discriminate].
    apply negb_true_iff in W. repeat mstep. rewrite W. repeat mstep.
    reflexivity.
  - intros T. unfold terminal, status_is in T.
    destruct (getitem status "status") as [st|e] eqn:ES; [|discriminate].
    repeat mstep. rewrite T.
    destruct (get status "onChain" (PDict [])) as [oc|e]; repeat mstep;
      [|split; [reflexivity | exact I]].
    destruct (get oc "txId" (PStr "")) as [tx|e]; repeat mstep;
      split; try reflexivity; exact I.
Qed.

Lemma signature_body_polls_with self id :
  polls_with env (check_signature_status id (_address self))
    (signature_poll_body env self (Ok id)).
Proof.
  intros h status HA. unfold signature_poll_body.
  repeat mstep. rewrite HA. split.
  - intros W. unfold waiting in W.
    destruct (getitem status "status") as [st|e]; [|discriminate].
    apply negb_true_iff, orb_false_iff in W. destruct W as [W1 W2].
    repeat mstep. rewrite W1. repeat mstep. rewrite W2. repeat mstep.
    reflexivity.
  - intros T. unfold terminal, status_is in T.
    destruct (getitem status "status") as [st|e] eqn:ES; [|discriminate].
    repeat mstep. destruct (eq_str st "success") eqn:E1.
    + destruct (get status "outputSignature" PNone) as [out|e] eqn:EO;
        repeat mstep; [|split; [reflexivity | exact I]].
      destruct (truthy out) eqn:Tr; cbn [negb];
        [|split; [reflexivity | exact I]].
      rewrite (get_truthy_getitem _ _ _ EO Tr). repeat mstep.
      split; [reflexivity | exact I].
    + simpl in T. repeat mstep. rewrite T. split; [reflexivity | exact I].
Qed.

(** Enough fuel takes a polling loop through a script of waiting statuses
    to its terminal status, with exactly the trace of fetches and sleeps
    the script dictates. *)
Lemma while_true_scripted {A} (c : call) (body : M (option A)) :
  polls_with env c body ->
  forall ss final fuel h,
    scripted env c h ss final ->
    length ss < fuel ->
    snd (while_true fuel body h) = waits c ss ++ [Api c (Ok final)]
    /\ ended (fst (while_true fuel body h)) = true.
Proof.
  intros Hb ss. induction ss as [|s ss IH]; intros final fuel h [Hs [Hw Ht]] Hf.
  - destruct fuel as [|fuel]; [inversion Hf|].
    pose proof (Hs 0 (Nat.le_refl _)) as H0. simpl in H0.
    rewrite app_nil_r in H0.
    destruct (Hb h final H0) as [_ Hterm]. specialize (Hterm Ht).
    destruct Hterm as [Htr Ho]. simpl. unfold bind.
    destruct (body h) as [[[a|]|e|] t]; simpl in *; try contradiction;
      subst; split; reflexivity.
  - destruct fuel as [|fuel]; [inversion Hf|].
    pose proof (Hs 0 (Nat.le_0_l _)) as H0. simpl in H0.
    rewrite app_nil_r in H0.
    simpl in Hw. apply andb_true_iff in Hw. destruct Hw as [Hw1 Hw2].
    destruct (Hb h s H0) as [Hwait _]. specialize (Hwait Hw1).
    simpl. unfold bind. rewrite Hwait.
    assert (Hs' : scripted env c (h ++ [Api c (Ok s); Sleep 2]) ss final).
    { split; [|split; assumption]. intros j Hj.
      specialize (Hs (S j)). simpl in Hs. rewrite <- app_assoc.
      apply Hs. simpl. lia. }
    simpl in Hf. apply Nat.succ_lt_mono in Hf.
    destruct (IH final fuel _ Hs' Hf) as [Htr Ho].
    destruct (while_true fuel body (h ++ [Api c (Ok s); Sleep 2])) as [o t].
    simpl in *. subst. split; [reflexivity | assumption].
Qed.


(** The events of a script that is followed to its end are one polling
    cycle. *)
Lemma poll_cycle_waits (c : call) (ss : list pyval) (final : pyval) :
  is_status_call c = true ->
  forallb waiting ss = true ->
  terminal final = true ->
  poll_cycle (waits c ss ++ [Api c (Ok final)]) = true.
Proof.
  intros Hc Hw Ht. induction ss as [|s ss IH]; simpl.
  - rewrite Hc, Ht. reflexivity.
  - simpl in Hw. apply andb_true_iff in Hw. destruct Hw as [Hs Hw].
    simpl in IH. rewrite Hc, Hs, (IH Hw). reflexivity.
Qed.

Lemma waiting_of_status status st :
  getitem status "status" = Ok st ->
  eq_str st "success" || eq_str st "failed" = false ->
  waiting status = true.
Proof. intros H T. unfold waiting. rewrite H, T. reflexivity. Qed.

Lemma bind_assoc {A B C} (m : M A) (f : A -> M B) (k : B -> M C) h :
  bind (bind m f) k h = bind m (fun a => bind (f a) k) h.
Proof.
  unfold bind. destruct (m h) as [[a|e|] t1]; try reflexivity.
  destruct (f a (h ++ t1)) as [[b|e|] t2]; try reflexivity.
  rewrite <- app_assoc. destruct (k b (h ++ t1 ++ t2)) as [o t3].
  rewrite app_assoc. reflexivity.
Qed.

Ltac massoc :=
  cbv beta iota; first [rewrite bind_assoc | mstep]; cbv beta iota.

(** After an API call, the trace starts with that call; what follows it
    is whatever the rest of the computation adds. *)
Lemma api_call_first {B} P (c : call) (k : pyval -> M B) h :
  (forall v, quiet P (k v)) ->
  exists rest,
    snd (bind (api_call env c) k h) = Api c (api env h c) :: rest
    /\ forallb P rest = true.
Proof.
  intros Hk. rewrite bind_api_call. destruct (api env h c) as [v|e].
  - eexists. split; [reflexivity | apply Hk].
  - exists []. split; reflexivity.
Qed.

(** *** Submission *)

(** The creation request of a submission: the first event of the run, made
    once, with every built call, and with an approver only for a key-held
    signer. *)
Lemma send_creation fuel self txs calls h :
  map_result (call_of_transaction env) txs = Ok calls ->
  let approver :=
    match _signer self with
    | CustodialSigner _ => None
    | KeyPairSigner _ a => Some a
    end in
  let c :=
    create_transaction_for_smart_wallet
      (_address self) calls (_chain self) approver in
  exists rest,
    snd (_send_batch_of_transactions env fuel self txs h)
      = Api c (api env h c) :: rest
    /\ forallb not_creation rest = true.
Proof.
  intros Hmap. unfold _send_batch_of_transactions. rewrite Hmap. mstep.
  unfold has_custodial_signer, signer_address_field.
  destruct (_signer self) as [s|k a]; cbv zeta.
  - mstep.
    match goal with
    | |- context [bind (api_call env ?c) ?k h] =>
        destruct (api_call_first not_creation c k h) as [rest [Hr Hq]]
    end.
    { intros v. quiet_tac. }
    exists rest. rewrite Hr. auto.
  - rewrite bind_assoc. mstep. mstep.
    match goal with
    | |- context [bind (api_call env ?c) ?k h] =>
        destruct (api_call_first not_creation c k h) as [rest [Hr Hq]]
    end.
    { intros v. quiet_tac. }
    exists rest. rewrite Hr. auto.
Qed.

(** *** From the creation request to the polling loop *)

(** What an operation does before its loop, for each kind of signer: the
    run is these events followed by the run of the loop. *)
Lemma send_custodial_opens fuel self txs calls h response :
  has_custodial_signer self = true ->
  map_result (call_of_transaction env) txs = Ok calls ->
  let create :=
    create_transaction_for_smart_wallet
      (_address self) calls (_chain self) None in
  let pre := [Api create (Ok response)] in
  let loop :=
    while_true fuel (transaction_poll_body env self response) (h ++ pre) in
  api env h create = Ok response ->
  _send_batch_of_transactions env fuel self txs h
  = (fst loop, pre ++ snd loop).
Proof.
  intros Hc Hmap create pre loop Hapi.
  unfold _send_batch_of_transactions. rewrite Hmap, Hc. cbn [negb].
  repeat massoc. fold create. rewrite Hapi. repeat massoc. reflexivity.
Qed.

Lemma send_key_held_opens
    fuel self txs calls h k a response approvals first others m account sig
    id approved :
  _signer self = KeyPairSigner k a ->
  not_str (Some k) = false ->
  map_result (call_of_transaction env) txs = Ok calls ->
  let create :=
    create_transaction_for_smart_wallet
      (_address self) calls (_chain self) (Some a) in
  let sign := LocalSign (account_address account) m (Ok sig) in
  let approve :=
    approve_transaction (_locator self) id
      [mkApproval sig ("evm-keypair:" ++ account_address account)] in
  let pre := [Api create (Ok response); sign; Api approve (Ok approved)] in
  let loop :=
    while_true fuel (transaction_poll_body env self response) (h ++ pre) in
  api env h create = Ok response ->
  getitem response "approvals" = Ok approvals ->
  getitem approvals "pending" = Ok (PList (first :: others)) ->
  getitem first "message" = Ok m ->
  truthy m = true ->
  from_key env k = Ok account ->
  account_sign_hex account m = Ok sig ->
  getitem response "id" = Ok id ->
  api env (h ++ [Api create (Ok response); sign]) approve = Ok approved ->
  _send_batch_of_transactions env fuel self txs h
  = (fst loop, pre ++ snd loop).
Proof.
  intros Hsg Hkey Hmap create sign approve pre loop Hapi Happ Hpend Hmsg Hm
    Hfk Hsig Hid Hapr.
  unfold _send_batch_of_transactions. rewrite Hmap. mstep.
  unfold has_custodial_signer, signer_address_field, require_secret_key,
    secret_key.
  rewrite Hsg. cbn [negb]. rewrite Hkey.
  repeat massoc. fold create. rewrite Hapi.
  repeat massoc. rewrite Happ. repeat massoc. rewrite Hpend.
  repeat massoc. simpl getitem0. repeat massoc. rewrite Hmsg.
  repeat massoc. rewrite Hm. cbn [negb]. repeat massoc. rewrite Hfk.
  repeat massoc. rewrite Hsig. repeat massoc. rewrite Hid. repeat massoc.
  fold sign approve. rewrite <- !app_assoc. cbn [app].
  rewrite Hapr. repeat massoc. rewrite <- !app_assoc. cbn [app].
  reflexivity.
Qed.

(** A response that has an ["id"] is a dict, and [get] works on it. *)
Lemma getitem_get (v : pyval) (k k' : string) (x default : pyval) :
  getitem v k = Ok x -> exists y, get v k' default = Ok y.
Proof.
  destruct v; simpl; try discriminate. intros _.
  destruct (assoc k' d); eauto.
Qed.

Lemma sign_message_custodial_opens fuel self message h response id :
  has_custodial_signer self = true ->
  let create :=
    sign_message_for_smart_wallet
      (_address self) message (_chain self) None in
  let pre := [Api create (Ok response)] in
  let loop :=
    while_true fuel (signature_poll_body env self (Ok id)) (h ++ pre) in
  api env h create = Ok response ->
  getitem response "id" = Ok id ->
  sign_message env fuel self message h = (fst loop, pre ++ snd loop).
Proof.
  intros Hc create pre loop Hapi Hid.
  destruct (getitem_get response "id" "approvals" id (PDict []) Hid)
    as [approvals Happ].
  unfold sign_message. rewrite Hc. cbn [negb].
  repeat massoc. fold create. rewrite Hapi. repeat massoc.
  rewrite Hid. repeat massoc. rewrite Happ. repeat massoc. reflexivity.
Qed.



(** C6, as amended.  A batch is submitted as one pending operation only
    when it builds.  A batch with a transaction that does not build
    raises the builder's exception before anything is sent: no creation
    request, no polling.  A batch whose transactions all build makes
    exactly one creation request, first of all, carrying one call per
    transaction, whatever its length.  When that request is answered
    with an operation that has an id (and, for a key-held signer, the
    first pending approval is signed and the approval accepted), and the
    status fetches are answered with waiting statuses and then a
    terminal one, a run with more fuel than waiting statuses goes
    through exactly one polling cycle after it and has ended: its events
    are the opening ones followed by that cycle.  And [send_transaction]
    is [send_batch_of_transactions] on the one-element list. *)
Theorem batch_is_one_operation
    (fuel : nat) (self : SmartWalletClient)
    (txs : list EVMTransaction) (h : list event) :
  let run := _send_batch_of_transactions env fuel self txs h in
  let approver :=
    match _signer self with
    | CustodialSigner _ => None
    | KeyPairSigner _ a => Some a
    end in
  (forall e,
     map_result (call_of_transaction env) txs = Err e ->
     run = (Raised e, []))
  /\ (forall calls,
        map_result (call_of_transaction env) txs = Ok calls ->
        length calls = length txs
        /\ count is_creation (snd run) = 1
        /\ exists r rest,
             snd run =
               Api (create_transaction_for_smart_wallet
                      (_address self) calls (_chain self) approver) r :: rest)
  /\ (forall calls response id ss final,
        has_custodial_signer self = true ->
        map_result (call_of_transaction env) txs = Ok calls ->
        let create :=
          create_transaction_for_smart_wallet
            (_address self) calls (_chain self) None in
        let check := check_transaction_status (_locator self) id in
        let cycle := waits check ss ++ [Api check (Ok final)] in
        api env h create = Ok response ->
        getitem response "id" = Ok id ->
        scripted env check (h ++ [Api create (Ok response)]) ss final ->
        length ss < fuel ->
        snd run = Api create (Ok response) :: cycle
        /\ poll_cycle cycle = true
        /\ ended (fst run) = true)
  /\ (forall calls k a response approvals first others m account sig id
             approved ss final,
        _signer self = KeyPairSigner k a ->
        not_str (Some k) = false ->
        map_result (call_of_transaction env) txs = Ok calls ->
        let create :=
          create_transaction_for_smart_wallet
            (_address self) calls (_chain self) (Some a) in
        let sign := LocalSign (account_address account) m (Ok sig) in
        let approve :=
          approve_transaction (_locator self) id
            [mkApproval sig ("evm-keypair:" ++ account_address account)] in
        let check := check_transaction_status (_locator self) id in
        let cycle := waits check ss ++ [Api check (Ok final)] in
        api env h create = Ok response ->
        getitem response "approvals" = Ok approvals ->
        getitem approvals "pending" = Ok (PList (first :: others)) ->
        getitem first "message" = Ok m ->
        truthy m = true ->
        from_key env k = Ok account ->
        account_sign_hex account m = Ok sig ->
        getitem response "id" = Ok id ->
        api env (h ++ [Api create (Ok response); sign]) approve
          = Ok approved ->
        scripted env check
          (h ++ [Api create (Ok response); sign; Api approve (Ok approved)])
          ss final ->
        length ss < fuel ->
        snd run
          = Api create (Ok response) :: sign :: Api approve (Ok approved)
              :: cycle
        /\ poll_cycle cycle = true
        /\ ended (fst run) = true)
  /\ (forall tx,
        send_transaction env fuel self tx
        = send_batch_of_transactions env fuel self [tx]).
Proof.
  intros run approver. subst run approver.
  split; [|split; [|split; [|split]]].
  - intros e Hmap. unfold _send_batch_of_transactions. rewrite Hmap.
    reflexivity.
  - intros calls Hmap.
    destruct (send_creation fuel self txs calls h Hmap) as [rest [Hr Hq]].
    split; [|split].
    + clear - Hmap. revert calls Hmap.
      induction txs as [|tx txs IH]; intros calls; simpl.
      * intros E. inversion E. reflexivity.
      * destruct (call_of_transaction env tx); simpl; [|discriminate].
        destruct (map_result (call_of_transaction env) txs); simpl;
          [|discriminate].
        intros E. inversion E. simpl. f_equal. apply IH. reflexivity.
    + rewrite Hr. unfold count. simpl. f_equal.
      apply (count_none is_creation), Hq.
    + eauto.
  - intros calls response id ss final Hc Hmap create check cycle Hapi Hid
      Hs Hf.
    rewrite (send_custodial_opens fuel self txs calls h response Hc Hmap Hapi).
    destruct (while_true_scripted check _
                (transaction_body_polls_with self response id Hid)
                ss final fuel _ Hs Hf) as [Ht He].
    cbn [fst snd]. fold create. rewrite Ht. cbn [app].
    split; [reflexivity|]. split; [|exact He].
    destruct Hs as [_ [Hw HT]]. apply poll_cycle_waits; auto.
  - intros calls k a response approvals first others m account sig id
      approved ss final Hsg Hkey Hmap create sign approve check cycle Hapi
      Happ Hpend Hmsg Hm Hfk Hsig Hid Hapr Hs Hf.
    rewrite (send_key_held_opens fuel self txs calls h k a response approvals
               first others m account sig id approved
               Hsg Hkey Hmap Hapi Happ Hpend Hmsg Hm Hfk Hsig Hid Hapr).
    destruct (while_true_scripted check _
                (transaction_body_polls_with self response id Hid)
                ss final fuel _ Hs Hf) as [Ht He].
    cbn [fst snd]. fold create sign approve. rewrite Ht. cbn [app].
    split; [reflexivity|]. split; [|exact He].
    destruct Hs as [_ [Hw HT]]. apply poll_cycle_waits; auto.
  - reflexivity.
Qed.

(** C5.  With a custodial signer neither a submission nor a message
    signing makes a signature with a local key, calls
    [approve_transaction] or [approve_signature_for_smart_wallet], or
    names an approver; and the creation request, the first event of the
    run, is made with [None] for the signer address. *)
Theorem custodial_signer_delegates (fuel : nat) (self : SmartWalletClient) :
  has_custodial_signer self = true ->
  (forall txs h,
     forallb custodial_event
       (snd (_send_batch_of_transactions env fuel self txs h)) = true)
  /\ (forall message h,
        forallb custodial_event
          (snd (sign_message env fuel self message h)) = true)
  /\ (forall txs calls h,
        map_result (call_of_transaction env) txs = Ok calls ->
        exists r rest,
          snd (_send_batch_of_transactions env fuel self txs h) =
            Api (create_transaction_for_smart_wallet
                   (_address self) calls (_chain self) None) r :: rest)
  /\ (forall message h,
        exists r rest,
          snd (sign_message env fuel self message h) =
            Api (sign_message_for_smart_wallet
                   (_address self) message (_chain self) None) r :: rest).
Proof.
  intros Hc. split; [|split; [|split]].
  - intros txs h. apply custodial_send_quiet, Hc.
  - intros message h. apply custodial_sign_message_quiet, Hc.
  - intros txs calls h Hmap.
    destruct (send_creation fuel self txs calls h Hmap) as [rest [Hr _]].
    unfold has_custodial_signer in Hc.
    destruct (_signer self); [|discriminate]. eauto.
  - intros message h. unfold sign_message. rewrite Hc. cbn [negb]. mstep.
    match goal with
    | |- context [bind (api_call env ?c) ?k h] =>
        destruct (api_call_first (fun _ => true) c k h) as [rest [Hr _]]
    end.
    { intros v. quiet_tac. }
    eauto.
Qed.

(** *** What becomes of a terminal status *)

(** C1, as amended.  When the last thing an operation did was to fetch a
    status, and the answer was [failed]: a submission returns
    [{"hash": h, "status": "failed"}] when
    [status.get("onChain", {}).get("txId", "")] has the value [h], and
    raises what that expression raises otherwise; [h] is [""] for a
    status without ["onChain"], the ["txId"] of an ["onChain"] that is a
    dict ([""] when it has none), and any other ["onChain"], [None]
    among them, raises [AttributeError].  [sign_message] and
    [sign_typed_data] raise [ValueError("Signature failed")].  With a
    custodial signer and a custody API that answers the creation request
    with an id, and the status fetches with waiting statuses and then
    this [failed] status, a run with enough fuel is such a run: it ends
    at that fetch, with that outcome. *)
Theorem failed_status_outcome
    (fuel : nat) (self : SmartWalletClient) (h : list event)
    (c : call) (status : pyval) :
  is_status_call c = true ->
  status_is status "failed" = true ->
  (forall txs,
     last_event (snd (_send_batch_of_transactions env fuel self txs h))
       = Some (Api c (Ok status)) ->
     fst (_send_batch_of_transactions env fuel self txs h)
       = match transaction_hash status with
         | Ok tx_id =>
             Returned (PDict [("hash", tx_id); ("status", PStr "failed")])
         | Err e => Raised e
         end)
  /\ (exists d,
        status = PDict d
        /\ transaction_hash status
           = match assoc "onChain" d with
             | None => Ok (PStr "")
             | Some (PDict on_chain) =>
                 Ok (match assoc "txId" on_chain with
                     | Some tx_id => tx_id
                     | None => PStr ""
                     end)
             | Some _ => Err AttributeError
             end)
  /\ (forall message,
        last_event (snd (sign_message env fuel self message h))
          = Some (Api c (Ok status)) ->
        fst (sign_message env fuel self message h)
          = Raised (ValueError "Signature failed"))
  /\ (forall typed_data,
        last_event (snd (sign_typed_data env fuel self typed_data h))
          = Some (Api c (Ok status)) ->
        fst (sign_typed_data env fuel self typed_data h)
          = Raised (ValueError "Signature failed"))
  /\ (forall txs calls response id ss,
        has_custodial_signer self = true ->
        map_result (call_of_transaction env) txs = Ok calls ->
        let create :=
          create_transaction_for_smart_wallet
            (_address self) calls (_chain self) None in
        let check := check_transaction_status (_locator self) id in
        api env h create = Ok response ->
        getitem response "id" = Ok id ->
        scripted env check (h ++ [Api create (Ok response)]) ss status ->
        length ss < fuel ->
        _send_batch_of_transactions env fuel self txs h
        = (match transaction_hash status with
           | Ok tx_id =>
               Returned (PDict [("hash", tx_id); ("status", PStr "failed")])
           | Err e => Raised e
           end,
           Api create (Ok response)
             :: waits check ss ++ [Api check (Ok status)]))
  /\ (forall message response id ss,
        has_custodial_signer self = true ->
        let create :=
          sign_message_for_smart_wallet
            (_address self) message (_chain self) None in
        let check := check_signature_status id (_address self) in
        api env h create = Ok response ->
        getitem response "id" = Ok id ->
        scripted env check (h ++ [Api create (Ok response)]) ss status ->
        length ss < fuel ->
        sign_message env fuel self message h
        = (Raised (ValueError "Signature failed"),
           Api create (Ok response)
             :: waits check ss ++ [Api check (Ok status)])).
Proof.
  intros Hc Hf. split; [|split; [|split; [|split; [|split]]]].
  - intros txs L.
    apply (send_final_result fuel self txs h c status L Hc "failed"); auto.
  - apply (transaction_hash_cases status "failed" Hf).
  - intros message L.
    apply (sign_message_final_status fuel self message h c status L Hc), Hf.
  - intros typed_data L.
    apply (sign_typed_data_final_status fuel self typed_data h c status L Hc),
      Hf.
  - intros txs calls response id ss Hcu Hmap create check Hapi Hid Hs Hl.
    pose proof (send_final_result fuel self txs h check status) as Hres.
    rewrite (send_custodial_opens fuel self txs calls h response
               Hcu Hmap Hapi) in *.
    destruct (while_true_scripted check _
                (transaction_body_polls_with self response id Hid)
                ss status fuel _ Hs Hl) as [Ht _].
    cbn [fst snd] in *. fold create in Ht, Hres |- *.
    rewrite Ht in *. cbn [app] in *.
    rewrite app_comm_cons, last_event_snoc in Hres.
    rewrite (Hres eq_refl eq_refl "failed" (or_intror eq_refl) Hf).
    reflexivity.
  - intros message response id ss Hcu create check Hapi Hid Hs Hl.
    pose proof (sign_message_final_status fuel self message h check status)
      as Hres.
    rewrite (sign_message_custodial_opens fuel self message h response id
               Hcu Hapi Hid) in *.
    destruct (while_true_scripted check _
                (signature_body_polls_with self id)
                ss status fuel _ Hs Hl) as [Ht _].
    cbn [fst snd] in *. fold create in Ht, Hres |- *.
    rewrite Ht in *. cbn [app] in *.
    rewrite app_comm_cons, last_event_snoc in Hres.
    destruct (Hres eq_refl eq_refl) as [Hfail _].
    rewrite (Hfail Hf). reflexivity.
Qed.

(** C9, as amended.  When the last thing a signing operation did was to
    fetch a status, and the answer was [success]: with [out] what
    [status.get("outputSignature")] gives ([None] when the key is not
    there), the operation raises [ValueError("Signature is undefined")]
    if [out] is falsy (absent, [None], the empty string) and returns
    [{"signature": out}] otherwise. *)
Theorem success_status_signature
    (fuel : nat) (self : SmartWalletClient) (h : list event)
    (c : call) (status out : pyval) :
  is_status_call c = true ->
  status_is status "success" = true ->
  get status "outputSignature" PNone = Ok out ->
  (forall message,
     last_event (snd (sign_message env fuel self message h))
       = Some (Api c (Ok status)) ->
     fst (sign_message env fuel self message h)
       = if truthy out
         then Returned (PDict [("signature", out)])
         else Raised (ValueError "Signature is undefined"))
  /\ (forall typed_data,
        last_event (snd (sign_typed_data env fuel self typed_data h))
          = Some (Api c (Ok status)) ->
        fst (sign_typed_data env fuel self typed_data h)
          = if truthy out
            then Returned (PDict [("signature", out)])
            else Raised (ValueError "Signature is undefined"))
  /\ (forall d, status = PDict d -> assoc "outputSignature" d = None ->
      out = PNone).
Proof.
  intros Hc Hs Ho. split; [|split].
  - intros message L.
    apply (sign_message_final_status fuel self message h c status L Hc);
      assumption.
  - intros typed_data L.
    apply (sign_typed_data_final_status fuel self typed_data h c status L Hc);
      assumption.
  - intros d -> Hd. simpl in Ho. rewrite Hd in Ho. congruence.
Qed.

(** *** The polling loops *)


(** *** Approval by a key-held signer *)

(** X1.  With a key-held signer, a submission signs the ["message"] of the
    first pending approval of the created operation with the local key
    and sends that one signature in one [approve_transaction] call; the
    rest of the run neither signs nor approves again. *)
Theorem send_signs_first_pending
    (fuel : nat) (self : SmartWalletClient) (txs : list EVMTransaction)
    (calls : list Call) (h : list event) (k a : string)
    (response approvals first : pyval) (others : list pyval) (m : pyval)
    (account : Account) (sig : string) (id : pyval) :
  _signer self = KeyPairSigner k a ->
  not_str (Some k) = false ->
  map_result (call_of_transaction env) txs = Ok calls ->
  api env h
    (create_transaction_for_smart_wallet
       (_address self) calls (_chain self) (Some a)) = Ok response ->
  getitem response "approvals" = Ok approvals ->
  getitem approvals "pending" = Ok (PList (first :: others)) ->
  getitem first "message" = Ok m ->
  truthy m = true ->
  from_key env k = Ok account ->
  account_sign_hex account m = Ok sig ->
  getitem response "id" = Ok id ->
  exists r rest,
    snd (_send_batch_of_transactions env fuel self txs h) =
      [Api (create_transaction_for_smart_wallet
              (_address self) calls (_chain self) (Some a)) (Ok response);
       LocalSign (account_address account) m (Ok sig);
       Api (approve_transaction (_locator self) id
              [mkApproval sig ("evm-keypair:" ++ account_address account)]) r]
      ++ rest
    /\ count is_local_sign rest = 0
    /\ count is_approval rest = 0.
Proof.
  intros Hs Hk Hmap Hapi Happ Hpend Hmsg Hm Hkey Hsig Hid.
  unfold _send_batch_of_transactions. rewrite Hmap. mstep.
  unfold has_custodial_signer, signer_address_field, require_secret_key,
    secret_key.
  rewrite Hs. cbn [negb]. rewrite Hk.
  repeat massoc. rewrite Hapi.
  repeat massoc. rewrite Happ. repeat massoc. rewrite Hpend.
  repeat massoc. simpl getitem0. repeat massoc. rewrite Hmsg.
  repeat massoc. rewrite Hm. cbn [negb]. repeat massoc. rewrite Hkey.
  repeat massoc. rewrite Hsig. repeat massoc. rewrite Hid. repeat massoc.
  match goal with
  | |- context [api env ?h' ?c] => destruct (api env h' c) as [v|e]
  end.
  - eexists. eexists. cbn [snd]. split; [reflexivity|].
    massoc.
    match goal with
    | |- context [snd (?loop ?h')] =>
        assert (Hq : quiet (fun e => negb (is_local_sign e)
                                     && negb (is_approval e)) loop)
          by quiet_tac;
        specialize (Hq h')
    end.
    split; apply count_none;
      (eapply forallb_forall; intros e He;
       apply (proj1 (forallb_forall _ _) Hq) in He;
       apply andb_true_iff in He; tauto).
  - eexists. exists []. cbn [snd]. split; [reflexivity|]. split; reflexivity.
Qed.

(** C2, on the failing input's side.  With a key-held signer and a
    created operation whose list of pending approvals is empty, the
    submission ends in [IndexError], raised by [...["pending"][0]]; the
    creation request is the only event of the run, so nothing is signed
    and no approval is sent. *)
Theorem send_empty_pending_approvals
    (fuel : nat) (self : SmartWalletClient) (txs : list EVMTransaction)
    (calls : list Call) (h : list event) (k a : string)
    (response approvals : pyval) :
  _signer self = KeyPairSigner k a ->
  not_str (Some k) = false ->
  map_result (call_of_transaction env) txs = Ok calls ->
  api env h
    (create_transaction_for_smart_wallet
       (_address self) calls (_chain self) (Some a)) = Ok response ->
  getitem response "approvals" = Ok approvals ->
  getitem approvals "pending" = Ok (PList []) ->
  _send_batch_of_transactions env fuel self txs h
  = (Raised IndexError,
     [Api (create_transaction_for_smart_wallet
             (_address self) calls (_chain self) (Some a)) (Ok response)]).
Proof.
  intros Hs Hk Hmap Hapi Happ Hpend.
  unfold _send_batch_of_transactions. rewrite Hmap. mstep.
  unfold has_custodial_signer, signer_address_field, require_secret_key,
    secret_key.
  rewrite Hs. cbn [negb]. rewrite Hk.
  repeat massoc. rewrite Hapi.
  repeat massoc. rewrite Happ. repeat massoc. rewrite Hpend.
  repeat massoc. reflexivity.
Qed.

(** *** Locators *)



Lemma get_locator_for_linked address d :
  get_locator_for address (Some d) =
  match linked_identity d with
  | Some (kind, v) => Ok (kind ++ ":" ++ v ++ ":evm-smart-wallet")%string
  | None => get_locator address
  end.
Proof.
  unfold get_locator_for, linked_identity. destruct d as [|p d].
  - reflexivity.
  - destruct (lookup "email" (p :: d)); [reflexivity|].
    destruct (lookup "phone" (p :: d)); [reflexivity|].
    destruct (lookup "userId" (p :: d)); reflexivity.
Qed.

(** X16.  [get_locator] fails in exactly one way and exactly one case: with the
    [ValueError] asking for an address, when the address is [None] or
    empty and the linked user is [None], empty, or has none of the keys
    email, phone and userId. *)
Theorem get_locator_for_fails_iff
    (address : option string) (linked_user : option (list (string * string)))
    (e : exn) :
  get_locator_for address linked_user = Err e
  <-> (e = ValueError
             "A Smart Wallet address is required if no linked user is provided"
       /\ not_str address = true
       /\ match linked_user with
          | Some d => linked_identity d = None
          | None => True
          end).
Proof.
  assert (HA : get_locator address = Err e <->
               e = ValueError
                     "A Smart Wallet address is required if no linked user is provided"
               /\ not_str address = true).
  { unfold get_locator. destruct (not_str address); split.
    - intros H. inversion H. auto.
    - intros [-> _]. reflexivity.
    - discriminate.
    - intros [_ H]. discriminate. }
  destruct linked_user as [d|].
  - rewrite get_locator_for_linked.
    destruct (linked_identity d) as [[kind v]|].
    + split; [discriminate|]. intros [_ [_ H]]. discriminate.
    + rewrite HA. tauto.
  - simpl. rewrite HA. tauto.
Qed.


(** *** Addresses, reads and the factory *)

Section ChainProperties.

Variable web3 : Providers.



(** X20.  An address that [resolve_address] returns is always an output of
    [to_checksum_address]: of the address itself when it validates,
    otherwise of the non-empty name the ENS provider resolved it to. *)
Theorem resolve_address_returns (address a : string) :
  resolve_address env web3 address = Ok a ->
  (validate_address web3 address = Ok tt
   /\ to_checksum_address env address = Ok a)
  \/ (exists resolve name,
        ens_resolve_name web3 = Some resolve
        /\ resolve address = Ok (Some name)
        /\ name <> ""
        /\ to_checksum_address env name = Ok a).
Proof.
  unfold resolve_address, checksum_if_valid.
  destruct (validate_address web3 address) as [[]|e0] eqn:EV; simpl.
  - destruct (to_checksum_address env address) as [c|e1] eqn:EC.
    + intros H. inversion H. subst. left. auto.
    + destruct e1; try discriminate.
      destruct (ens_resolve_name web3) as [resolve|]; [|discriminate].
      unfold resolve_ens_name.
      destruct (resolve address) as [[name|]|e2] eqn:ER; simpl;
        try discriminate.
      destruct (String.eqb_spec name ""); [discriminate|].
      destruct (to_checksum_address env name) as [c|e3] eqn:EN;
        [|discriminate].
      intros H. inversion H. subst. right. exists resolve, name. auto.
  - destruct e0; try discriminate.
    destruct (ens_resolve_name web3) as [resolve|]; [|discriminate].
    unfold resolve_ens_name.
    destruct (resolve address) as [[name|]|e2] eqn:ER; simpl;
      try discriminate.
    destruct (String.eqb_spec name ""); [discriminate|].
    destruct (to_checksum_address env name) as [c|e3] eqn:EN;
      [|discriminate].
    intros H. inversion H. subst. right. exists resolve, name. auto.
Qed.

(** X21.  [read] without an ABI raises its [ValueError], whatever the
    address and the providers.  With an ABI, and an [eth] module without
    [read_contract] (web3's own), it raises [AttributeError] whatever the
    address: the address is not resolved, for a name that would resolve
    and for one that would not alike.  It returns only when the attribute
    is there, and then [{"value": r}] with [r] what the attribute, called
    with the ABI at the address [resolve_address] returned, gave. *)
Theorem read_returns (request : EVMReadRequest) :
  (not_list (rr_abi request) = true ->
   read env web3 request
   = Err (ValueError "Read request must include ABI for EVM"))
  /\ (not_list (rr_abi request) = false ->
      read_contract web3 = None ->
      read env web3 request = Err AttributeError)
  /\ (forall callee a r,
        not_list (rr_abi request) = false ->
        read_contract web3 = Some callee ->
        resolve_address env web3 (rr_address request) = Ok a ->
        callee a (or_nil (rr_abi request))
          (rr_functionName request) (or_nil (rr_args request)) = Ok r ->
        read env web3 request = Ok (PDict [("value", r)]))
  /\ (forall v,
        read env web3 request = Ok v ->
        exists callee a r,
          not_list (rr_abi request) = false
          /\ read_contract web3 = Some callee
          /\ resolve_address env web3 (rr_address request) = Ok a
          /\ callee a (or_nil (rr_abi request))
               (rr_functionName request) (or_nil (rr_args request)) = Ok r
          /\ v = PDict [("value", r)]).
Proof.
  unfold read. split; [|split; [|split]].
  - intros ->. reflexivity.
  - intros -> ->. reflexivity.
  - intros callee a r -> -> -> Hr. simpl. rewrite Hr. reflexivity.
  - intros v. destruct (not_list (rr_abi request)); [discriminate|].
    destruct (read_contract web3) as [callee|]; [|discriminate].
    destruct (resolve_address env web3 (rr_address request)) as [a|e];
      simpl; [|discriminate].
    destruct (callee a _ _ _) as [r|e] eqn:ER; simpl; [|discriminate].
    intros H. inversion H. exists callee, a, r. auto.
Qed.

Lemma created_client_locator
    (options : WalletOptions) (client : SmartWalletClient) :
  create_smart_wallet web3 options = Ok client ->
  _locator client = _address client.
Proof.
  unfold create_smart_wallet.
  destruct (get_locator_for _ _) as [locator|e]; simpl; [|discriminate].
  destruct (get_wallet web3 locator) as [[address|]|e]; simpl;
    try discriminate.
  unfold SmartWalletClient_init.
  destruct (get_locator (Some address)) as [l|e] eqn:EL; simpl;
    [|discriminate].
  intros H. inversion H. subst. simpl.
  unfold get_locator in EL. destruct (not_str (Some address));
    [discriminate|]. inversion EL. reflexivity.
Qed.

(** X22.  A client made by [create_smart_wallet] has a non-empty address, which
    is the address the custody API gave for the locator formed from the
    options, and the client's own locator is that address (never the
    linked-user locator it was looked up with); chain and signer are the
    options'. *)
Theorem create_smart_wallet_returns
    (options : WalletOptions) (client : SmartWalletClient) :
  create_smart_wallet web3 options = Ok client ->
  _locator client = _address client
  /\ _address client <> ""
  /\ (exists locator,
        get_locator_for (opt_address options) (opt_linkedUser options)
          = Ok locator
        /\ get_wallet web3 locator = Ok (Some (_address client)))
  /\ _chain client = opt_chain options
  /\ _signer client = opt_signer options.
Proof.
  unfold create_smart_wallet.
  destruct (get_locator_for _ _) as [locator|e]; simpl; [|discriminate].
  destruct (get_wallet web3 locator) as [[address|]|e] eqn:EW; simpl;
    try discriminate.
  unfold SmartWalletClient_init, get_locator. simpl.
  destruct (String.eqb_spec address ""); simpl; [discriminate|].
  intros H. inversion H. subst. simpl. eauto 10.
Qed.

Ltac quiet_step_by tac :=
  match goal with
  | |- quiet _ (bind (ret _) _) => apply quiet_bind_ret
  | |- quiet _ (bind (lift _) _) => apply quiet_bind_lift; intros ? ?
  | |- quiet _ (bind _ _) => apply quiet_bind; [|intros ?]
  | |- quiet _ (ret _) => apply quiet_ret
  | |- quiet _ (raise _) => apply quiet_raise
  | |- quiet _ (lift _) => apply quiet_lift
  | |- quiet _ (api_call _ _) => apply quiet_api_call; intros; tac
  | |- quiet _ (local_sign _ _) => apply quiet_local_sign; intros; reflexivity
  | |- quiet _ (sleep _) => apply quiet_sleep; reflexivity
  | |- quiet _ (while_true _ _) => apply quiet_while_true
  | |- quiet _ (if ?b then _ else _) => destruct b
  | |- quiet _ (match ?x with _ => _ end) => destruct x
  end.

Ltac quiet_by tac :=
  unfold transaction_poll_body, signature_poll_body,
    require_signer_account, require_secret_key;
  repeat quiet_step_by tac.

(** Every custody API call made through a client whose locator is its
    address is about that address. *)
Lemma operations_about_wallet fuel self h :
  _locator self = _address self ->
  (forall txs,
     forallb (about_wallet (_address self))
       (snd (_send_batch_of_transactions env fuel self txs h)) = true)
  /\ (forall message,
        forallb (about_wallet (_address self))
          (snd (sign_message env fuel self message h)) = true)
  /\ (forall typed_data,
        forallb (about_wallet (_address self))
          (snd (sign_typed_data env fuel self typed_data h)) = true).
Proof.
  intros Hl. split; [|split].
  - intros txs. revert h.
    change (quiet (about_wallet (_address self))
              (_send_batch_of_transactions env fuel self txs)).
    unfold _send_batch_of_transactions.
    quiet_by ltac:(simpl; rewrite ?Hl; apply String.eqb_refl).
  - intros message. revert h.
    change (quiet (about_wallet (_address self))
              (sign_message env fuel self message)).
    unfold sign_message.
    quiet_by ltac:(simpl; rewrite ?Hl; apply String.eqb_refl).
  - intros typed_data. revert h.
    change (quiet (about_wallet (_address self))
              (sign_typed_data env fuel self typed_data)).
    unfold sign_typed_data.
    quiet_by ltac:(simpl; rewrite ?Hl; apply String.eqb_refl).
Qed.

(** X23.  Through a client made by [create_smart_wallet], every custody API
    call of a submission, a message signing or a typed-data signing names
    the address the custody API gave for the wallet, also when the wallet
    was looked up by a linked user's email, phone or user id. *)
Theorem factory_client_calls_its_wallet
    (options : WalletOptions) (client : SmartWalletClient)
    (fuel : nat) (h : list event) :
  create_smart_wallet web3 options = Ok client ->
  (forall txs,
     forallb (about_wallet (_address client))
       (snd (_send_batch_of_transactions env fuel client txs h)) = true)
  /\ (forall message,
        forallb (about_wallet (_address client))
          (snd (sign_message env fuel client message h)) = true)
  /\ (forall typed_data,
        forallb (about_wallet (_address client))
          (snd (sign_typed_data env fuel client typed_data h)) = true).
Proof.
  intros H. apply operations_about_wallet.
  apply (created_client_locator options client H).
Qed.

End ChainProperties.

(** *** The protocol of an operation *)

Lemma run_phase_app p t1 t2 :
  run_phase p (t1 ++ t2) =
  match run_phase p t1 with
  | Some q => run_phase q t2
  | None => None
  end.
Proof.
  revert p. induction t1 as [|ev t1 IH]; intros p; simpl; [reflexivity|].
  destruct (phase_step p ev); [apply IH | reflexivity].
Qed.

Lemma run_phase_failed e t :
  run_phase (Failed e) t = match t with [] => Some (Failed e) | _ => None end.
Proof. destruct t; reflexivity. Qed.

Lemma follows_ret {A} p (a : A) (Q : A -> phase -> Prop) :
  live p = true -> Q a p -> follows p (ret a) Q.
Proof.
  intros L H h. simpl. destruct p; try discriminate;
    intros a' E; inversion E; subst; exact H.
Qed.

Lemma follows_raise {A} p e (Q : A -> phase -> Prop) :
  live p = true -> follows p (raise e) Q.
Proof. intros L h. simpl. destruct p; try discriminate; intros a' E; inversion E. Qed.

Lemma follows_lift {A} p (r : result A) (Q : A -> phase -> Prop) :
  live p = true -> (forall a, r = Ok a -> Q a p) -> follows p (lift r) Q.
Proof.
  intros L H. destruct r as [a|e]; simpl.
  - apply follows_ret; auto.
  - apply follows_raise; auto.
Qed.

Lemma follows_ext {A} p (m m' : M A) (Q : A -> phase -> Prop) :
  (forall h, m h = m' h) -> follows p m' Q -> follows p m Q.
Proof. intros E H h. rewrite E. apply H. Qed.

Lemma follows_bind {A B} p (m : M A) (k : A -> M B)
    (Q : A -> phase -> Prop) (Q' : B -> phase -> Prop) :
  follows p m Q ->
  (forall a q, live q = true -> Q a q -> follows q (k a) Q') ->
  follows p (bind m k) Q'.
Proof.
  intros Hm Hk h. specialize (Hm h). unfold bind.
  destruct (m h) as [[a|e|] t1]; simpl in *.
  - destruct (run_phase p t1) as [q|] eqn:R; [|contradiction].
    destruct (k a (h ++ t1)) as [o t2] eqn:K. simpl.
    assert (L : live q = true).
    { destruct q; try reflexivity. discriminate Hm. }
    assert (HQ : Q a q).
    { destruct q; try (apply Hm; reflexivity). discriminate L. }
    specialize (Hk a q L HQ (h ++ t1)). rewrite K in Hk. simpl in Hk.
    rewrite run_phase_app, R. exact Hk.
  - destruct (run_phase p t1) as [q|]; [|contradiction].
    destruct q; try (intros b E; inversion E). inversion Hm. reflexivity.
  - destruct (run_phase p t1) as [q|]; [|contradiction].
    destruct q; try (intros b E; inversion E). discriminate Hm.
Qed.

Lemma follows_bind_lift {A B} p (r : result A) (k : A -> M B)
    (Q : B -> phase -> Prop) :
  live p = true ->
  (forall a, r = Ok a -> follows p (k a) Q) ->
  follows p (bind (lift r) k) Q.
Proof.
  intros L H. destruct r as [a|e].
  - eapply follows_ext; [intros h; apply bind_lift_ok|]. apply H. reflexivity.
  - eapply follows_ext; [intros h; apply bind_lift_err|].
    apply (follows_raise p e Q L).
Qed.

Lemma follows_bind_ret {A B} p (a : A) (k : A -> M B)
    (Q : B -> phase -> Prop) :
  follows p (k a) Q -> follows p (bind (ret a) k) Q.
Proof. intros H. eapply follows_ext; [intros h; apply bind_ret_l | exact H]. Qed.

Lemma follows_bind_raise {A B} p e (k : A -> M B) (Q : B -> phase -> Prop) :
  live p = true -> follows p (bind (raise e) k) Q.
Proof.
  intros L h. simpl. destruct p; try discriminate; intros b E; inversion E.
Qed.

Lemma follows_bind_assoc {A B C} p (m : M A) (f : A -> M B) (k : B -> M C)
    (Q : C -> phase -> Prop) :
  follows p (bind m (fun a => bind (f a) k)) Q ->
  follows p (bind (bind m f) k) Q.
Proof. intros H. eapply follows_ext; [intros h; apply bind_assoc | exact H]. Qed.

(** A custody API call that the protocol allows in phase [p] and that
    leads to phase [q v] when answered with [v]. *)
Lemma follows_bind_api {B} p c (q : pyval -> phase) (k : pyval -> M B)
    (Q : B -> phase -> Prop) :
  (forall r,
     phase_step p (Api c r)
     = Some (match r with Ok v => q v | Err e => Failed e end)) ->
  (forall v, live (q v) = true) ->
  (forall v, follows (q v) (k v) Q) ->
  follows p (bind (api_call env c) k) Q.
Proof.
  intros Hs Hl Hk h. rewrite bind_api_call.
  destruct (api env h c) as [v|e] eqn:EA.
  - cbn [fst snd run_phase]. rewrite (Hs (Ok v)).
    specialize (Hk v (h ++ [Api c (Ok v)])). exact Hk.
  - cbn [fst snd run_phase]. rewrite (Hs (Err e)). reflexivity.
Qed.

Lemma follows_bind_local_sign {B} account m (k : string -> M B)
    (Q : B -> phase -> Prop) :
  (forall s, follows Signed (k s) Q) ->
  follows Created (bind (local_sign account m) k) Q.
Proof.
  intros Hk h. rewrite bind_local_sign.
  destruct (account_sign_hex account m) as [s|e].
  - cbn [fst snd run_phase phase_step or_failed]. apply Hk.
  - reflexivity.
Qed.

Lemma follows_bind_sleep {B} (k : unit -> M B) (Q : B -> phase -> Prop) :
  follows Slept (k tt) Q ->
  follows (Fetched true) (bind (sleep 2) k) Q.
Proof. intros Hk h. rewrite bind_sleep. apply Hk. Qed.

Lemma follows_while_true {A} (body : M (option A))
    (Q : A -> phase -> Prop) fuel :
  (forall p, may_fetch p = true ->
     follows p body
       (fun r q => match r with
                   | Some a => Q a q
                   | None => may_fetch q = true
                   end)) ->
  forall p, may_fetch p = true -> follows p (while_true fuel body) Q.
Proof.
  intros Hb. induction fuel as [|fuel IH]; intros p Hp.
  - intros h. simpl. destruct p; try discriminate; intros a E; inversion E.
  - simpl. eapply follows_bind; [apply Hb, Hp|].
    intros [a|] q L HQ.
    + apply follows_ret; assumption.
    + apply IH, HQ.
Qed.

Lemma follows_weaken {A} p (m : M A) (Q Q' : A -> phase -> Prop) :
  follows p m Q -> (forall a q, Q a q -> Q' a q) -> follows p m Q'.
Proof.
  intros H W h. specialize (H h).
  destruct (run_phase p (snd (m h))) as [q|]; [|contradiction].
  destruct q; auto.
Qed.

Lemma follows_protocol_run {A} (m : M A) (Q : A -> phase -> Prop) h :
  follows Start m Q -> protocol_run (fst (m h)) (snd (m h)).
Proof.
  intros H. specialize (H h). unfold protocol_run.
  destruct (run_phase Start (snd (m h))) as [q|]; [|contradiction].
  destruct q; auto.
Qed.

Ltac follow_step :=
  cbn [negb];
  match goal with
  | |- follows _ (bind (bind _ _) _) _ => apply follows_bind_assoc
  | |- follows _ (bind (ret _) _) _ => apply follows_bind_ret
  | |- follows _ (bind (lift _) _) _ =>
      apply follows_bind_lift; [reflexivity | intros ? ?]
  | |- follows _ (bind (raise _) _) _ =>
      apply follows_bind_raise; reflexivity
  | |- follows Start (bind (api_call _ _) _) _ =>
      apply (follows_bind_api Start _ (fun _ => Created));
      [intros [?|?]; reflexivity | reflexivity | intros ?]
  | |- follows Signed (bind (api_call _ _) _) _ =>
      apply (follows_bind_api Signed _ (fun _ => Approved));
      [intros [?|?]; reflexivity | reflexivity | intros ?]
  | |- follows _ (bind (local_sign _ _) _) _ =>
      apply follows_bind_local_sign; intros ?
  | |- follows _ (bind (sleep 2) _) _ => apply follows_bind_sleep
  | |- follows _ (ret _) _ =>
      apply follows_ret; [reflexivity | try exact I; try reflexivity]
  | |- follows _ (raise _) _ => apply follows_raise; reflexivity
  | |- follows _ (bind (if ?b then _ else _) _) _ => destruct b eqn:?
  | |- follows _ (if ?b then _ else _) _ => destruct b eqn:?
  | |- follows _ (bind (match ?x with _ => _ end) _) _ => destruct x eqn:?
  | |- follows _ (match ?x with _ => _ end) _ => destruct x eqn:?
  end.

Lemma transaction_body_follows self response p :
  may_fetch p = true ->
  follows p (transaction_poll_body env self response)
    (fun r q => match r with
                | Some _ => True
                | None => may_fetch q = true
                end).
Proof.
  intros Hp. unfold transaction_poll_body.
  assert (L : live p = true) by (destruct p; try discriminate; reflexivity).
  apply follows_bind_lift; [exact L | intros id _].
  apply (follows_bind_api p _ (fun v => Fetched (waiting v))).
  - intros [v|e]; destruct p; try discriminate Hp; reflexivity.
  - reflexivity.
  - intros status.
    apply follows_bind_lift; [reflexivity | intros st ES].
    destruct (eq_str st "success" || eq_str st "failed") eqn:ET.
    + repeat follow_step.
    + rewrite (waiting_of_status _ _ ES ET). repeat follow_step.
Qed.

Lemma signature_body_follows self signature_id p :
  may_fetch p = true ->
  follows p (signature_poll_body env self signature_id)
    (fun r q => match r with
                | Some _ => True
                | None => may_fetch q = true
                end).
Proof.
  intros Hp. unfold signature_poll_body.
  assert (L : live p = true) by (destruct p; try discriminate; reflexivity).
  apply follows_bind_lift; [exact L | intros id _].
  apply (follows_bind_api p _ (fun v => Fetched (waiting v))).
  - intros [v|e]; destruct p; try discriminate Hp; reflexivity.
  - reflexivity.
  - intros status.
    apply follows_bind_lift; [reflexivity | intros st ES].
    destruct (eq_str st "success") eqn:E1.
    + repeat follow_step.
    + apply follows_bind_lift; [reflexivity | intros st' ES'].
      rewrite ES in ES'. inversion ES'. subst st'.
      destruct (eq_str st "failed") eqn:E2.
      * repeat follow_step.
      * rewrite (waiting_of_status status st ES)
          by (rewrite E1, E2; reflexivity).
        repeat follow_step.
Qed.

Ltac follow :=
  unfold require_signer_account, require_secret_key;
  repeat follow_step;
  try (apply follows_while_true;
       [intros ? ?;
        first [apply transaction_body_follows | apply signature_body_follows];
        assumption
       | reflexivity]).

Lemma send_follows fuel self txs :
  follows Start (_send_batch_of_transactions env fuel self txs)
    (fun _ _ => True).
Proof. unfold _send_batch_of_transactions. follow. Qed.

Lemma sign_message_follows fuel self message :
  follows Start (sign_message env fuel self message) (fun _ _ => True).
Proof. unfold sign_message. follow. Qed.

Lemma sign_typed_data_follows fuel self typed_data :
  follows Start (sign_typed_data env fuel self typed_data) (fun _ _ => True).
Proof. unfold sign_typed_data. follow. Qed.

(** X7.  Every run of a submission, a message signing or a typed-data signing
    keeps to the protocol, whatever the custody API answers and however
    long the run is allowed to poll: first the creation request; then,
    at most, one local signature followed by one approval; then status
    fetches only, each waiting status followed by a sleep of two seconds
    and the next fetch.  An exception from a custody API call or from the
    local signing ends the run: it is the last event, and the run raises
    it unchanged. *)
Theorem operations_keep_protocol
    (fuel : nat) (self : SmartWalletClient) (h : list event) :
  (forall txs,
     protocol_run
       (fst (_send_batch_of_transactions env fuel self txs h))
       (snd (_send_batch_of_transactions env fuel self txs h)))
  /\ (forall message,
        protocol_run
          (fst (sign_message env fuel self message h))
          (snd (sign_message env fuel self message h)))
  /\ (forall typed_data,
        protocol_run
          (fst (sign_typed_data env fuel self typed_data h))
          (snd (sign_typed_data env fuel self typed_data h))).
Proof.
  split; [|split]; intros x.
  - eapply follows_protocol_run, send_follows.
  - eapply follows_protocol_run, sign_message_follows.
  - eapply follows_protocol_run, sign_typed_data_follows.
Qed.

Lemma count_cons p ev t :
  count p (ev :: t) = (if p ev then 1 else 0) + count p t.
Proof. unfold count. simpl. destruct (p ev); reflexivity. Qed.

Lemma phase_step_budget p ev p' :
  phase_step p ev = Some p' ->
  (if is_creation ev then 1 else 0) + creations_left p' <= creations_left p
  /\ (if is_local_sign ev then 1 else 0) + signatures_left p'
     <= signatures_left p
  /\ (if is_approval ev then 1 else 0) + approvals_left p' <= approvals_left p
  /\ (if is_approval ev then 1 else 0) + approvals_due p'
     <= (if is_local_sign ev then 1 else 0) + approvals_due p
  /\ (if is_sleep ev then 1 else 0) + sleeps_due p'
     <= (if is_status_check ev then 1 else 0) + sleeps_due p.
Proof.
  destruct p as [| | | |[|]| |e0];
    destruct ev as [[] [v|e]|a m [s|e]|z];
    simpl; try discriminate;
    try (destruct (Z.eqb z 2); try discriminate);
    intros E; inversion E; subst; simpl;
    repeat split; try lia;
    destruct (waiting v); simpl; lia.
Qed.

Lemma run_phase_budget t : forall p q,
  run_phase p t = Some q ->
  count is_creation t <= creations_left p
  /\ count is_local_sign t <= signatures_left p
  /\ count is_approval t <= approvals_left p
  /\ count is_approval t <= count is_local_sign t + approvals_due p
  /\ count is_sleep t <= count is_status_check t + sleeps_due p.
Proof.
  induction t as [|ev t IH]; intros p q; simpl.
  - intros _. unfold count. simpl. repeat split; lia.
  - destruct (phase_step p ev) as [p'|] eqn:E; [|discriminate].
    intros R. apply IH in R. apply phase_step_budget in E.
    rewrite !count_cons. destruct R as [R1 [R2 [R3 [R4 R5]]]].
    destruct E as [E1 [E2 [E3 [E4 E5]]]]. repeat split; lia.
Qed.

Lemma protocol_run_budget {A} (o : outcome A) t :
  protocol_run o t ->
  count is_creation t <= 1
  /\ count is_local_sign t <= 1
  /\ count is_approval t <= count is_local_sign t
  /\ count is_sleep t <= count is_status_check t.
Proof.
  unfold protocol_run. destruct (run_phase Start t) as [q|] eqn:R;
    [|contradiction].
  intros _. apply run_phase_budget in R. simpl in R.
  destruct R as [R1 [R2 [R3 [R4 R5]]]]. repeat split; lia.
Qed.

(** X8.  In every run of a submission, a message signing or a typed-data
    signing there is at most one creation request and at most one local
    signature, never more approvals than local signatures, and never
    more sleeps than status fetches; so a run never creates a second
    pending operation, never approves what it has not signed, and never
    waits without having asked. *)
Theorem operations_act_once
    (fuel : nat) (self : SmartWalletClient) (h : list event) :
  let bounded t :=
    count is_creation t <= 1
    /\ count is_local_sign t <= 1
    /\ count is_approval t <= count is_local_sign t
    /\ count is_sleep t <= count is_status_check t in
  (forall txs,
     bounded (snd (_send_batch_of_transactions env fuel self txs h)))
  /\ (forall message, bounded (snd (sign_message env fuel self message h)))
  /\ (forall typed_data,
        bounded (snd (sign_typed_data env fuel self typed_data h))).
Proof.
  intros bounded. subst bounded. cbv beta.
  split; [|split]; intros x.
  - eapply protocol_run_budget, follows_protocol_run, send_follows.
  - eapply protocol_run_budget, follows_protocol_run, sign_message_follows.
  - eapply protocol_run_budget, follows_protocol_run,
      sign_typed_data_follows.
Qed.

(** *** Runs that complete *)

Lemma transaction_loop_completes
    fuel self response id h ss final s tx_id :
  getitem response "id" = Ok id ->
  scripted env (check_transaction_status (_locator self) id) h ss final ->
  s = "success" \/ s = "failed" ->
  status_is final s = true ->
  transaction_hash final = Ok tx_id ->
  length ss < fuel ->
  while_true fuel (transaction_poll_body env self response) h
  = (Returned (PDict [("hash", tx_id); ("status", PStr s)]),
     waits (check_transaction_status (_locator self) id) ss
       ++ [Api (check_transaction_status (_locator self) id) (Ok final)]).
Proof.
  intros Hid Hs Hk Hst Hh Hf.
  destruct (while_true_scripted _ _
              (transaction_body_polls_with self response id Hid)
              ss final fuel h Hs Hf) as [Ht _].
  pose proof (on_final_status_while_true transaction_outcome _ fuel
                (transaction_body_final_status self response)
                h (check_transaction_status (_locator self) id) final) as Ho.
  rewrite Ht, last_event_snoc in Ho.
  specialize (Ho eq_refl eq_refl s tx_id Hk Hst Hh).
  destruct (while_true fuel (transaction_poll_body env self response) h)
    as [o t]. simpl in *. subst. reflexivity.
Qed.

Lemma signature_loop_completes fuel self id h ss final out :
  scripted env (check_signature_status id (_address self)) h ss final ->
  status_is final "success" = true ->
  get final "outputSignature" PNone = Ok out ->
  truthy out = true ->
  length ss < fuel ->
  while_true fuel (signature_poll_body env self (Ok id)) h
  = (Returned (PDict [("signature", out)]),
     waits (check_signature_status id (_address self)) ss
       ++ [Api (check_signature_status id (_address self)) (Ok final)]).
Proof.
  intros Hs Hst Ho Htr Hf.
  destruct (while_true_scripted _ _
              (signature_body_polls_with self id)
              ss final fuel h Hs Hf) as [Ht _].
  pose proof (on_final_status_while_true signature_outcome _ fuel
                (signature_body_final_status self (Ok id))
                h (check_signature_status id (_address self)) final) as H.
  rewrite Ht, last_event_snoc in H.
  destruct (H eq_refl eq_refl) as [_ H2].
  specialize (H2 Hst out Ho). rewrite Htr in H2.
  destruct (while_true fuel (signature_poll_body env self (Ok id)) h)
    as [o t]. simpl in *. subst. reflexivity.
Qed.

(** X2.  A submission with a custodial signer runs to its result: when the
    transactions build, the creation request is answered with an
    operation that has an id, and the custody API answers the status
    fetches with waiting statuses and then a terminal one [s], a run with
    more fuel than waiting statuses returns
    [{"hash": onChain.txId or "", "status": s}]; its events are the
    creation request, then each waiting fetch with the sleep after it,
    then the terminal fetch, and nothing else. *)
Theorem send_custodial_completes
    (fuel : nat) (self : SmartWalletClient) (txs : list EVMTransaction)
    (calls : list Call) (h : list event) (response id : pyval)
    (ss : list pyval) (final : pyval) (s : string) (tx_id : pyval) :
  has_custodial_signer self = true ->
  map_result (call_of_transaction env) txs = Ok calls ->
  let create :=
    create_transaction_for_smart_wallet
      (_address self) calls (_chain self) None in
  let check := check_transaction_status (_locator self) id in
  api env h create = Ok response ->
  getitem response "id" = Ok id ->
  scripted env check (h ++ [Api create (Ok response)]) ss final ->
  s = "success" \/ s = "failed" ->
  status_is final s = true ->
  transaction_hash final = Ok tx_id ->
  length ss < fuel ->
  _send_batch_of_transactions env fuel self txs h
  = (Returned (PDict [("hash", tx_id); ("status", PStr s)]),
     Api create (Ok response) :: waits check ss ++ [Api check (Ok final)]).
Proof.
  intros Hc Hmap create check Hapi Hid Hs Hk Hst Hh Hf.
  unfold _send_batch_of_transactions. rewrite Hmap, Hc. cbn [negb].
  repeat massoc. fold create. rewrite Hapi. repeat massoc.
  rewrite (transaction_loop_completes fuel self response id _ ss final s tx_id
             Hid Hs Hk Hst Hh Hf).
  reflexivity.
Qed.

(** X3.  A submission with a key-held signer runs to its result: with the
    first pending approval's message signed by the account of the secret
    key, and the approval accepted, the run returns
    [{"hash": ..., "status": s}] after exactly the creation request (which
    names the signer's configured address), the local signature, one
    [approve_transaction] call carrying it, and the polling. *)
Theorem send_key_held_completes
    (fuel : nat) (self : SmartWalletClient) (txs : list EVMTransaction)
    (calls : list Call) (h : list event) (k a : string)
    (response approvals first : pyval) (others : list pyval) (m : pyval)
    (account : Account) (sig : string) (id approved : pyval)
    (ss : list pyval) (final : pyval) (s : string) (tx_id : pyval) :
  _signer self = KeyPairSigner k a ->
  not_str (Some k) = false ->
  map_result (call_of_transaction env) txs = Ok calls ->
  let create :=
    create_transaction_for_smart_wallet
      (_address self) calls (_chain self) (Some a) in
  let sign := LocalSign (account_address account) m (Ok sig) in
  let approve :=
    approve_transaction (_locator self) id
      [mkApproval sig ("evm-keypair:" ++ account_address account)] in
  let check := check_transaction_status (_locator self) id in
  api env h create = Ok response ->
  getitem response "approvals" = Ok approvals ->
  getitem approvals "pending" = Ok (PList (first :: others)) ->
  getitem first "message" = Ok m ->
  truthy m = true ->
  from_key env k = Ok account ->
  account_sign_hex account m = Ok sig ->
  getitem response "id" = Ok id ->
  api env (h ++ [Api create (Ok response); sign]) approve = Ok approved ->
  scripted env check
    (h ++ [Api create (Ok response); sign; Api approve (Ok approved)])
    ss final ->
  s = "success" \/ s = "failed" ->
  status_is final s = true ->
  transaction_hash final = Ok tx_id ->
  length ss < fuel ->
  _send_batch_of_transactions env fuel self txs h
  = (Returned (PDict [("hash", tx_id); ("status", PStr s)]),
     Api create (Ok response) :: sign :: Api approve (Ok approved)
       :: waits check ss ++ [Api check (Ok final)]).
Proof.
  intros Hsg Hkey Hmap create sign approve check Hapi Happ Hpend Hmsg Hm
    Hfk Hsig Hid Hapr Hs Hk Hst Hh Hf.
  unfold _send_batch_of_transactions. rewrite Hmap. mstep.
  unfold has_custodial_signer, signer_address_field, require_secret_key,
    secret_key.
  rewrite Hsg. cbn [negb]. rewrite Hkey.
  repeat massoc. fold create. rewrite Hapi.
  repeat massoc. rewrite Happ. repeat massoc. rewrite Hpend.
  repeat massoc. simpl getitem0. repeat massoc. rewrite Hmsg.
  repeat massoc. rewrite Hm. cbn [negb]. repeat massoc. rewrite Hfk.
  repeat massoc. rewrite Hsig. repeat massoc. rewrite Hid. repeat massoc.
  fold sign approve. rewrite <- !app_assoc. cbn [app].
  rewrite Hapr. repeat massoc. rewrite <- !app_assoc. cbn [app].
  rewrite (transaction_loop_completes fuel self response id _ ss final s tx_id
             Hid Hs Hk Hst Hh Hf).
  reflexivity.
Qed.

(** X4.  A message signing with a custodial signer runs to its result: the
    creation request names no signer, nothing is signed or approved
    locally, and when the polled status becomes [success] with a
    non-empty [outputSignature] the run returns [{"signature": ...}]. *)
Theorem sign_message_custodial_completes
    (fuel : nat) (self : SmartWalletClient) (message : string)
    (h : list event) (response id approvals : pyval)
    (ss : list pyval) (final out : pyval) :
  has_custodial_signer self = true ->
  let create :=
    sign_message_for_smart_wallet
      (_address self) message (_chain self) None in
  let check := check_signature_status id (_address self) in
  api env h create = Ok response ->
  getitem response "id" = Ok id ->
  get response "approvals" (PDict []) = Ok approvals ->
  scripted env check (h ++ [Api create (Ok response)]) ss final ->
  status_is final "success" = true ->
  get final "outputSignature" PNone = Ok out ->
  truthy out = true ->
  length ss < fuel ->
  sign_message env fuel self message h
  = (Returned (PDict [("signature", out)]),
     Api create (Ok response) :: waits check ss ++ [Api check (Ok final)]).
Proof.
  intros Hc create check Hapi Hid Happ Hs Hst Ho Htr Hf.
  unfold sign_message. rewrite Hc. cbn [negb].
  repeat massoc. fold create. rewrite Hapi. repeat massoc.
  rewrite Hid. repeat massoc. rewrite Happ. repeat massoc.
  rewrite (signature_loop_completes fuel self id _ ss final out
             Hs Hst Ho Htr Hf).
  reflexivity.
Qed.

(** X5.  A message signing with a key-held signer runs to its result.  The
    creation request names the address of the account made from the
    secret key (not the signer's configured address); the first pending
    approval's message is signed with that account, and one
    [approve_signature_for_smart_wallet] call carries the signature under
    the tag ["evm-keypair:<account address>"]; then the polling, and on
    [success] the run returns [{"signature": outputSignature}]. *)
Theorem sign_message_key_held_completes
    (fuel : nat) (self : SmartWalletClient) (message : string)
    (h : list event) (k a : string) (account : Account)
    (response id approvals pending first m : pyval) (sig : string)
    (approved : pyval) (ss : list pyval) (final out : pyval) :
  _signer self = KeyPairSigner k a ->
  from_key env k = Ok account ->
  let create :=
    sign_message_for_smart_wallet
      (_address self) message (_chain self)
      (Some (account_address account)) in
  let sign := LocalSign (account_address account) m (Ok sig) in
  let approve :=
    approve_signature_for_smart_wallet id (_address self)
      ("evm-keypair:" ++ account_address account) sig in
  let check := check_signature_status id (_address self) in
  api env h create = Ok response ->
  getitem response "id" = Ok id ->
  get response "approvals" (PDict []) = Ok approvals ->
  get approvals "pending" (PList []) = Ok pending ->
  truthy pending = true ->
  getitem0 pending = Ok first ->
  get first "message" PNone = Ok m ->
  truthy m = true ->
  account_sign_hex account m = Ok sig ->
  api env (h ++ [Api create (Ok response); sign]) approve = Ok approved ->
  scripted env check
    (h ++ [Api create (Ok response); sign; Api approve (Ok approved)])
    ss final ->
  status_is final "success" = true ->
  get final "outputSignature" PNone = Ok out ->
  truthy out = true ->
  length ss < fuel ->
  sign_message env fuel self message h
  = (Returned (PDict [("signature", out)]),
     Api create (Ok response) :: sign :: Api approve (Ok approved)
       :: waits check ss ++ [Api check (Ok final)]).
Proof.
  intros Hsg Hfk create sign approve check Hapi Hid Happ Hpend Hp Hfirst
    Hmsg Hm Hsig Hapr Hs Hst Ho Htr Hf.
  unfold sign_message, require_signer_account, signerAccount,
    has_custodial_signer.
  rewrite Hsg, Hfk. cbn [negb rbind].
  repeat massoc. fold create. rewrite Hapi. repeat massoc.
  rewrite Hid. repeat massoc. rewrite Happ. repeat massoc.
  rewrite Hpend. repeat massoc. rewrite Hp. cbn [negb]. repeat massoc.
  rewrite Hfirst. repeat massoc. rewrite Hmsg. repeat massoc.
  rewrite Hm. cbn [negb]. repeat massoc. rewrite Hsig. repeat massoc.
  fold sign approve. rewrite <- !app_assoc. cbn [app].
  rewrite Hapr. repeat massoc. rewrite <- !app_assoc. cbn [app].
  rewrite (signature_loop_completes fuel self id _ ss final out
             Hs Hst Ho Htr Hf).
  reflexivity.
Qed.

(** X6.  A typed-data signing with a key-held signer runs to its result: the
    creation request names the signer's configured address, the first
    pending approval's message is signed with the account of the secret
    key and approved in one call, and on [success] the run returns
    [{"signature": outputSignature}]. *)
Theorem sign_typed_data_completes
    (fuel : nat) (self : SmartWalletClient) (typed_data : pyval)
    (h : list event) (k a : string) (account : Account)
    (response id approvals first : pyval) (others : list pyval) (m : pyval)
    (sig : string) (approved : pyval)
    (ss : list pyval) (final out : pyval) :
  _signer self = KeyPairSigner k a ->
  not_str (Some k) = false ->
  let create :=
    sign_typed_data_for_smart_wallet
      (_address self) typed_data (_chain self) a in
  let sign := LocalSign (account_address account) m (Ok sig) in
  let approve :=
    approve_signature_for_smart_wallet id (_address self)
      ("evm-keypair:" ++ account_address account) sig in
  let check := check_signature_status id (_address self) in
  api env h create = Ok response ->
  getitem response "approvals" = Ok approvals ->
  getitem approvals "pending" = Ok (PList (first :: others)) ->
  getitem first "message" = Ok m ->
  from_key env k = Ok account ->
  account_sign_hex account m = Ok sig ->
  getitem response "id" = Ok id ->
  api env (h ++ [Api create (Ok response); sign]) approve = Ok approved ->
  scripted env check
    (h ++ [Api create (Ok response); sign; Api approve (Ok approved)])
    ss final ->
  status_is final "success" = true ->
  get final "outputSignature" PNone = Ok out ->
  truthy out = true ->
  length ss < fuel ->
  sign_typed_data env fuel self typed_data h
  = (Returned (PDict [("signature", out)]),
     Api create (Ok response) :: sign :: Api approve (Ok approved)
       :: waits check ss ++ [Api check (Ok final)]).
Proof.
  intros Hsg Hkey create sign approve check Hapi Happ Hpend Hmsg Hfk Hsig
    Hid Hapr Hs Hst Ho Htr Hf.
  unfold sign_typed_data, has_custodial_signer, require_secret_key,
    secret_key.
  rewrite Hsg. cbn [negb]. rewrite Hkey.
  repeat massoc. fold create. rewrite Hapi.
  repeat massoc. rewrite Happ. repeat massoc. rewrite Hpend.
  repeat massoc. simpl getitem0. repeat massoc. rewrite Hmsg.
  repeat massoc. rewrite Hfk. repeat massoc. rewrite Hsig.
  repeat massoc. rewrite Hid. repeat massoc.
  fold sign approve. rewrite <- !app_assoc. cbn [app].
  rewrite Hapr. repeat massoc. rewrite <- !app_assoc. cbn [app].
  rewrite (signature_loop_completes fuel self id _ ss final out
             Hs Hst Ho Htr Hf).
  reflexivity.
Qed.

(** *** Runs that stop early *)

(** X9.  [sign_message] with a key-held signer checks what it is given before
    it signs: a created operation with no pending approvals (no
    ["approvals"] key, no ["pending"] key, or an empty list) raises
    [ValueError("No pending approvals found")], and a first pending
    approval without a message raises
    [ValueError("No message to sign in approvals")]; in both cases the
    creation request is the only event, so nothing has been signed or
    approved. *)
Theorem sign_message_checks_pending
    (fuel : nat) (self : SmartWalletClient) (message : string)
    (h : list event) (k a : string) (account : Account)
    (response id approvals pending : pyval) :
  _signer self = KeyPairSigner k a ->
  from_key env k = Ok account ->
  let create :=
    sign_message_for_smart_wallet
      (_address self) message (_chain self)
      (Some (account_address account)) in
  api env h create = Ok response ->
  getitem response "id" = Ok id ->
  get response "approvals" (PDict []) = Ok approvals ->
  get approvals "pending" (PList []) = Ok pending ->
  (truthy pending = false ->
   sign_message env fuel self message h
   = (Raised (ValueError "No pending approvals found"),
      [Api create (Ok response)]))
  /\ (forall first m,
        truthy pending = true ->
        getitem0 pending = Ok first ->
        get first "message" PNone = Ok m ->
        truthy m = false ->
        sign_message env fuel self message h
        = (Raised (ValueError "No message to sign in approvals"),
           [Api create (Ok response)])).
Proof.
  intros Hsg Hfk create Hapi Hid Happ Hpend.
  unfold sign_message, require_signer_account, signerAccount,
    has_custodial_signer.
  rewrite Hsg, Hfk. cbn [negb rbind].
  repeat massoc. fold create. rewrite Hapi. repeat massoc.
  rewrite Hid. repeat massoc. rewrite Happ. repeat massoc.
  rewrite Hpend. repeat massoc. split.
  - intros Hp. rewrite Hp. cbn [negb]. repeat massoc. reflexivity.
  - intros first m Hp Hfirst Hmsg Hm. rewrite Hp. cbn [negb].
    repeat massoc. rewrite Hfirst. repeat massoc. rewrite Hmsg.
    repeat massoc. rewrite Hm. cbn [negb]. repeat massoc. reflexivity.
Qed.

(** X11.  An empty secret key is noticed late by a submission and by a
    typed-data signing: the creation request has already been made, and
    answered, when [ValueError("Signer account is not available")] is
    raised, so a pending operation is left behind that is never
    approved.  [sign_message] makes the account first: a key that
    [from_key] refuses stops it before any custody API call. *)
Theorem secret_key_checked_after_creation
    (fuel : nat) (self : SmartWalletClient) (h : list event) (a : string) :
  _signer self = KeyPairSigner "" a ->
  (forall txs calls response,
     map_result (call_of_transaction env) txs = Ok calls ->
     api env h
       (create_transaction_for_smart_wallet
          (_address self) calls (_chain self) (Some a)) = Ok response ->
     _send_batch_of_transactions env fuel self txs h
     = (Raised (ValueError "Signer account is not available"),
        [Api (create_transaction_for_smart_wallet
                (_address self) calls (_chain self) (Some a))
             (Ok response)]))
  /\ (forall typed_data response,
        api env h
          (sign_typed_data_for_smart_wallet
             (_address self) typed_data (_chain self) a) = Ok response ->
        sign_typed_data env fuel self typed_data h
        = (Raised (ValueError "Signer account is not available"),
           [Api (sign_typed_data_for_smart_wallet
                   (_address self) typed_data (_chain self) a)
                (Ok response)]))
  /\ (forall message e,
        from_key env "" = Err e ->
        sign_message env fuel self message h = (Raised e, [])).
Proof.
  intros Hsg. split; [|split].
  - intros txs calls response Hmap Hapi.
    unfold _send_batch_of_transactions. rewrite Hmap. mstep.
    unfold has_custodial_signer, signer_address_field, require_secret_key,
      secret_key.
    rewrite Hsg. cbn [negb not_str String.eqb].
    repeat massoc. rewrite Hapi. repeat massoc. reflexivity.
  - intros typed_data response Hapi.
    unfold sign_typed_data, has_custodial_signer, require_secret_key,
      secret_key.
    rewrite Hsg. cbn [negb not_str String.eqb].
    repeat massoc. rewrite Hapi. repeat massoc. reflexivity.
  - intros message e Hfk.
    unfold sign_message, require_signer_account, signerAccount,
      has_custodial_signer.
    rewrite Hsg, Hfk. cbn [negb rbind]. repeat massoc. reflexivity.
Qed.

Lemma build_keeps_recipient recipient abi function_name args v c :
  build_transaction_data env recipient abi function_name args v = Ok c ->
  to c = recipient.
Proof.
  unfold build_transaction_data.
  destruct (not_list abi); [intros H; inversion H; reflexivity|].
  destruct (not_str function_name); [discriminate|].
  destruct (to_checksum_address env recipient) as [x|e]; simpl;
    [|discriminate].
  destruct (encode_function_hex env x _ _ _) as [d|e]; simpl;
    [|discriminate].
  intros H. inversion H. reflexivity.
Qed.

(** X13.  The calls of a batch are the transactions' calls, one for one and in
    order, and each call's target is its transaction's ["to"] exactly as
    given (also when the ABI branch checksums the address to encode the
    call). *)
Theorem batch_calls_in_order
    (txs : list EVMTransaction) (calls : list Call) :
  map_result (call_of_transaction env) txs = Ok calls ->
  Forall2 (fun tx c => call_of_transaction env tx = Ok c) txs calls
  /\ map to calls = map tx_to txs.
Proof.
  revert calls. induction txs as [|tx txs IH]; intros calls; simpl.
  - intros H. inversion H. split; [constructor | reflexivity].
  - destruct (call_of_transaction env tx) as [c|e] eqn:EC; simpl;
      [|discriminate].
    destruct (map_result (call_of_transaction env) txs) as [cs|e] eqn:EM;
      simpl; [|discriminate].
    intros H. inversion H. subst. destruct (IH cs eq_refl) as [IH1 IH2].
    split.
    + constructor; assumption.
    + simpl. rewrite IH2. f_equal.
      unfold call_of_transaction in EC.
      eapply build_keeps_recipient, EC.
Qed.

(** X12.  A batch with a transaction that does not build is not submitted at
    all: the run raises the error of the first such transaction, all
    those before it having built, and makes no custody API call (its
    trace is empty). *)
Theorem batch_fails_fast
    (fuel : nat) (self : SmartWalletClient) (txs : list EVMTransaction)
    (h : list event) (e : exn) :
  map_result (call_of_transaction env) txs = Err e ->
  _send_batch_of_transactions env fuel self txs h = (Raised e, [])
  /\ exists before tx after built,
       txs = before ++ tx :: after
       /\ map_result (call_of_transaction env) before = Ok built
       /\ call_of_transaction env tx = Err e.
Proof.
  intros Hmap. split.
  - unfold _send_batch_of_transactions. rewrite Hmap. reflexivity.
  - clear fuel self h. revert Hmap.
    induction txs as [|tx txs IH]; simpl; [discriminate|].
    destruct (call_of_transaction env tx) as [c|e0] eqn:EC; simpl.
    + destruct (map_result (call_of_transaction env) txs) as [cs|e1] eqn:EM;
        simpl; [discriminate|].
      intros H. inversion H. subst e1.
      destruct (IH eq_refl) as [before [tx' [after [built [E1 [E2 E3]]]]]].
      exists (tx :: before), tx', after, (c :: built). subst txs.
      split; [reflexivity|]. split; [|assumption].
      simpl. rewrite EC, E2. reflexivity.
    + intros H. inversion H. subst e0.
      exists [], tx, txs, []. auto.
Qed.

(** X14.  A creation answer without an ["id"] is found out only when polling
    begins: a submission with a custodial signer raises the [KeyError]
    right after the creation request and fetches no status; a status
    answer without a ["status"] raises its [KeyError] in the same way,
    the fetch being the last event. *)
Theorem answers_without_keys
    (fuel : nat) (self : SmartWalletClient) (h : list event) :
  (forall txs calls response e,
     has_custodial_signer self = true ->
     map_result (call_of_transaction env) txs = Ok calls ->
     api env h
       (create_transaction_for_smart_wallet
          (_address self) calls (_chain self) None) = Ok response ->
     getitem response "id" = Err e ->
     _send_batch_of_transactions env (S fuel) self txs h
     = (Raised e,
        [Api (create_transaction_for_smart_wallet
                (_address self) calls (_chain self) None) (Ok response)]))
  /\ (forall response id status e,
        getitem response "id" = Ok id ->
        api env h (check_transaction_status (_locator self) id) = Ok status ->
        getitem status "status" = Err e ->
        while_true (S fuel) (transaction_poll_body env self response) h
        = (Raised e,
           [Api (check_transaction_status (_locator self) id) (Ok status)])).
Proof.
  split.
  - intros txs calls response e Hc Hmap Hapi Hid.
    unfold _send_batch_of_transactions. rewrite Hmap, Hc. cbn [negb].
    repeat massoc. rewrite Hapi. repeat massoc.
    cbn [while_true]. unfold transaction_poll_body. rewrite Hid.
    repeat massoc. reflexivity.
  - intros response id status e Hid Hapi Hst.
    cbn [while_true]. unfold transaction_poll_body. rewrite Hid.
    repeat massoc. rewrite Hapi. repeat massoc. rewrite Hst.
    repeat massoc. reflexivity.
Qed.

(** X10.  [sign_typed_data] does not check what it is given before it signs:
    after an answered creation request, a created operation without an
    ["approvals"] or a ["pending"] key raises the [KeyError] of the
    subscript, and one whose pending list is empty raises [IndexError];
    the creation request is the only event.  ([sign_message] raises
    [ValueError("No pending approvals found")] in all three cases.) *)
Theorem sign_typed_data_unchecked_pending
    (fuel : nat) (self : SmartWalletClient) (typed_data : pyval)
    (h : list event) (k a : string) (response : pyval) :
  _signer self = KeyPairSigner k a ->
  not_str (Some k) = false ->
  let create :=
    sign_typed_data_for_smart_wallet
      (_address self) typed_data (_chain self) a in
  api env h create = Ok response ->
  (forall e,
     getitem response "approvals" = Err e ->
     sign_typed_data env fuel self typed_data h
     = (Raised e, [Api create (Ok response)]))
  /\ (forall approvals e,
        getitem response "approvals" = Ok approvals ->
        getitem approvals "pending" = Err e ->
        sign_typed_data env fuel self typed_data h
        = (Raised e, [Api create (Ok response)]))
  /\ (forall approvals,
        getitem response "approvals" = Ok approvals ->
        getitem approvals "pending" = Ok (PList []) ->
        sign_typed_data env fuel self typed_data h
        = (Raised IndexError, [Api create (Ok response)])).
Proof.
  intros Hsg Hkey create Hapi.
  unfold sign_typed_data, has_custodial_signer, require_secret_key,
    secret_key.
  rewrite Hsg. cbn [negb]. rewrite Hkey.
  repeat massoc. fold create. rewrite Hapi. repeat massoc.
  split; [|split].
  - intros e Happ. rewrite Happ. repeat massoc. reflexivity.
  - intros approvals e Happ Hpend. rewrite Happ. repeat massoc.
    rewrite Hpend. repeat massoc. reflexivity.
  - intros approvals Happ Hpend. rewrite Happ. repeat massoc.
    rewrite Hpend. repeat massoc. reflexivity.
Qed.

(** X15.  What [build_transaction_data] can give.  A call it returns has the
    recipient as given for target and [str(value or 0)] for value, a
    decimal numeral that reads back as that integer; its data is ["0x"]
    when the ABI is absent or empty, and otherwise what the encoder made
    of the ABI, function name and arguments at the checksummed
    recipient.  An exception it raises is its own [ValueError] for a
    missing function name, or comes from the checksum routine or the
    encoder, in that order. *)
Theorem build_transaction_data_outcomes
    (recipient : string) (abi : option (list pyval))
    (function_name : option string) (args : option (list pyval))
    (v : option Z) :
  (forall c,
     build_transaction_data env recipient abi function_name args v = Ok c ->
     to c = recipient
     /\ value c = str (or_zero v)
     /\ read_decimal (value c) = Some (or_zero v)
     /\ ((not_list abi = true /\ data c = "0x")
         \/ (not_list abi = false
             /\ exists f address,
                  function_name = Some f /\ f <> ""
                  /\ to_checksum_address env recipient = Ok address
                  /\ encode_function_hex env address (or_nil abi) f
                       (or_nil args) = Ok (data c))))
  /\ (forall e,
        build_transaction_data env recipient abi function_name args v = Err e ->
        not_list abi = false
        /\ ((not_str function_name = true
             /\ e = ValueError
                      "Function name is required when ABI is provided")
            \/ (not_str function_name = false
                /\ (to_checksum_address env recipient = Err e
                    \/ exists address f,
                         function_name = Some f
                         /\ to_checksum_address env recipient = Ok address
                         /\ encode_function_hex env address (or_nil abi) f
                              (or_nil args) = Err e)))).
Proof.
  unfold build_transaction_data. split.
  - intros c. destruct (not_list abi).
    + intros H. inversion H. simpl. rewrite str_reads_back.
      repeat split. left. auto.
    + destruct function_name as [f|]; simpl; [|discriminate].
      destruct (String.eqb_spec f "") as [|Hne]; [discriminate|].
      destruct (to_checksum_address env recipient) as [address|e] eqn:EC;
        simpl; [|discriminate].
      destruct (encode_function_hex env address (or_nil abi) f (or_nil args))
        as [d|e] eqn:EE; simpl; [|discriminate].
      intros Hc. inversion Hc. simpl. rewrite str_reads_back.
      repeat split. right. split; [reflexivity|]. exists f, address. auto.
  - intros e. destruct (not_list abi); [discriminate|].
    intros Hb. split; [reflexivity|]. revert Hb.
    destruct (not_str function_name) eqn:EF.
    + intros Hb. inversion Hb. left. auto.
    + intros Hb. right. split; [reflexivity|]. revert Hb.
      destruct (to_checksum_address env recipient) as [address|e0] eqn:EC;
        simpl.
      * destruct function_name as [f|]; [|discriminate EF].
        destruct (encode_function_hex env address (or_nil abi) f (or_nil args))
          as [d|e1] eqn:EE; simpl; [discriminate|].
        intros Hb. inversion Hb. subst. right. exists address, f. auto.
      * intros Hb. inversion Hb. subst. left. reflexivity.
Qed.

(** *** Decompiling a versioned transaction *)

Lemma index_ok_iff {A} (l : list A) i :
  (exists x, index l i = Ok x) <-> i < length l.
Proof.
  unfold index. split.
  - intros [x H]. destruct (nth_error l i) eqn:E; [|discriminate].
    apply nth_error_Some. congruence.
  - intros H. apply nth_error_Some in H.
    destruct (nth_error l i) as [x|]; [eauto | congruence].
Qed.

Lemma index_err {A} (l : list A) i e : index l i = Err e -> e = IndexError.
Proof.
  unfold index. destruct (nth_error l i); [discriminate|].
  intros H. inversion H. reflexivity.
Qed.

Lemma map_result_ok_iff {A B} (f : A -> result B) (l : list A) :
  (exists ys, map_result f l = Ok ys)
  <-> Forall (fun a => exists b, f a = Ok b) l.
Proof.
  induction l as [|a l IH]; simpl.
  - split; [constructor | eauto].
  - split.
    + intros [ys H]. destruct (f a) as [b|e] eqn:E; simpl in H;
        [|discriminate].
      destruct (map_result f l) as [bs|e]; simpl in H; [|discriminate].
      constructor; [eauto | apply IH; eauto].
    + intros H. inversion H as [|? ? [b Hb] Hl]. subst.
      apply IH in Hl. destruct Hl as [bs Hbs]. rewrite Hb, Hbs. simpl. eauto.
Qed.

Lemma map_result_err {A B} (f : A -> result B) (l : list A) e :
  map_result f l = Err e -> exists a, In a l /\ f a = Err e.
Proof.
  induction l as [|a l IH]; simpl; [discriminate|].
  destruct (f a) as [b|e0] eqn:E; simpl.
  - destruct (map_result f l) as [bs|e1]; simpl; [discriminate|].
    intros H. inversion H. subst. destruct (IH eq_refl) as [x [Hx Hf]].
    eauto.
  - intros H. inversion H. subst. eauto.
Qed.

Lemma map_result_forall2 {A B} (f : A -> result B) (l : list A) ys :
  map_result f l = Ok ys -> Forall2 (fun a b => f a = Ok b) l ys.
Proof.
  revert ys. induction l as [|a l IH]; intros ys; simpl.
  - intros H. inversion H. constructor.
  - destruct (f a) as [b|e] eqn:E; simpl; [|discriminate].
    destruct (map_result f l) as [bs|e]; simpl; [|discriminate].
    intros H. inversion H. constructor; auto.
Qed.

Lemma account_meta_ok_iff message i :
  (exists meta, account_meta message i = Ok meta)
  <-> i < length (account_keys message) /\ has_is_writable message = true.
Proof.
  unfold account_meta, call_is_writable, has_is_writable.
  rewrite <- (index_ok_iff (account_keys message) i). split.
  - intros [meta H].
    destruct (index (account_keys message) i) as [k|e]; simpl in H;
      [|discriminate].
    destruct (message_kind message); simpl in H; [eauto | discriminate].
  - intros [[k Hk] Hw]. rewrite Hk. simpl.
    destruct (message_kind message); [simpl; eauto | discriminate].
Qed.

Lemma account_meta_err message i e :
  account_meta message i = Err e ->
  e = IndexError
  \/ (e = AttributeError /\ message_kind message = MessageV0).
Proof.
  unfold account_meta, call_is_writable.
  destruct (index (account_keys message) i) as [k|e0] eqn:EI; simpl.
  - destruct (message_kind message); simpl; [discriminate|].
    intros H. inversion H. auto.
  - intros H. inversion H. subst. left. eapply index_err, EI.
Qed.

Lemma map_account_meta_ok_iff message l :
  (exists accs, map_result (account_meta message) l = Ok accs)
  <-> forallb (fun i => Nat.ltb i (length (account_keys message))) l = true
      /\ (has_is_writable message = true \/ l = []).
Proof.
  rewrite map_result_ok_iff, forallb_forall, Forall_forall. split.
  - intros H. split.
    + intros i Hi. apply Nat.ltb_lt. apply (account_meta_ok_iff message i).
      apply H, Hi.
    + destruct l as [|i l]; [auto|]. left.
      apply (account_meta_ok_iff message i). apply H. left. reflexivity.
  - intros [Hr Hw] i Hi. apply account_meta_ok_iff. split.
    + apply Nat.ltb_lt, Hr, Hi.
    + destruct Hw as [Hw|Hw]; [exact Hw | subst; destruct Hi].
Qed.

Lemma decompile_instruction_ok_iff message ci :
  (exists ix, decompile_instruction message ci = Ok ix)
  <-> decompilable message ci = true.
Proof.
  unfold decompile_instruction, decompilable, indices_in_range, no_accounts.
  rewrite !andb_true_iff, orb_true_iff, Nat.ltb_lt. split.
  - intros [ix H].
    destruct (index (account_keys message) (program_id_index ci))
      as [pid|e] eqn:EP; simpl in H; [|discriminate].
    destruct (map_result (account_meta message) (ci_accounts ci))
      as [accs|e] eqn:EM; simpl in H; [|discriminate].
    assert (HM : exists accs,
               map_result (account_meta message) (ci_accounts ci) = Ok accs)
      by eauto.
    apply map_account_meta_ok_iff in HM. destruct HM as [Hr Hw].
    split; [split; [apply index_ok_iff; eauto | exact Hr]|].
    destruct Hw as [Hw|Hw]; [auto | rewrite Hw; auto].
  - intros [[Hp Ha] Hw]. apply index_ok_iff in Hp. destruct Hp as [pid Hp].
    rewrite Hp. simpl.
    assert (HM : exists accs,
               map_result (account_meta message) (ci_accounts ci) = Ok accs).
    { apply map_account_meta_ok_iff. split; [exact Ha|].
      destruct Hw as [Hw|Hw]; [auto|].
      destruct (ci_accounts ci); [auto | discriminate]. }
    destruct HM as [accs HM]. rewrite HM. simpl. eauto.
Qed.

Lemma decompile_instruction_err message ci e :
  decompile_instruction message ci = Err e ->
  e = IndexError
  \/ (e = AttributeError /\ message_kind message = MessageV0).
Proof.
  unfold decompile_instruction. intros H.
  destruct (index (account_keys message) (program_id_index ci))
    as [pid|e0] eqn:EP; simpl in H.
  - destruct (map_result (account_meta message) (ci_accounts ci))
      as [accs|e1] eqn:EM; simpl in H; [discriminate|].
    inversion H. subst. apply map_result_err in EM.
    destruct EM as [i [_ Hi]]. eapply account_meta_err, Hi.
  - inversion H. subst. left. eapply index_err, EP.
Qed.

(** On a [MessageV0], an instruction with indices in range and an account
    to describe stops at the first [is_writable]. *)
Lemma decompile_instruction_v0 message ci :
  message_kind message = MessageV0 ->
  indices_in_range message ci = true ->
  no_accounts ci = false ->
  decompile_instruction message ci = Err AttributeError.
Proof.
  unfold decompile_instruction, indices_in_range, no_accounts.
  intros Hk Hr Hn. apply andb_true_iff in Hr. destruct Hr as [Hp Ha].
  apply Nat.ltb_lt, index_ok_iff in Hp. destruct Hp as [pid Hp].
  rewrite Hp. simpl.
  destruct (ci_accounts ci) as [|i l]; [discriminate|].
  simpl in Ha. apply andb_true_iff in Ha. destruct Ha as [Hi _].
  apply Nat.ltb_lt, index_ok_iff in Hi. destruct Hi as [k Hi].
  simpl. unfold account_meta at 1, call_is_writable.
  rewrite Hi, Hk. reflexivity.
Qed.

(** X24.  Decompiling succeeds exactly when every program id index and every
    account index of every compiled instruction points into the
    transaction's account keys and, unless no instruction lists an
    account, the message is a legacy [Message].  The only exceptions it
    raises are [IndexError], and [AttributeError] on a [MessageV0]; and
    that is what a [MessageV0] gets with every index in range as soon as
    one instruction lists an account: [message.is_writable] is not
    there. *)
Theorem decompile_succeeds_iff (message : VersionedMessage) :
  ((exists ixs,
      decompile_versioned_transaction_to_instructions message = Ok ixs)
   <-> forallb (decompilable message) (instructions message) = true)
  /\ (forall e,
        decompile_versioned_transaction_to_instructions message = Err e ->
        e = IndexError
        \/ (e = AttributeError /\ message_kind message = MessageV0))
  /\ (message_kind message = MessageV0 ->
      forallb (indices_in_range message) (instructions message) = true ->
      existsb (fun ci => negb (no_accounts ci)) (instructions message) = true ->
      decompile_versioned_transaction_to_instructions message
      = Err AttributeError).
Proof.
  unfold decompile_versioned_transaction_to_instructions.
  split; [|split].
  - rewrite map_result_ok_iff, forallb_forall, Forall_forall.
    split; intros H ci Hci; apply decompile_instruction_ok_iff, H, Hci.
  - intros e H. apply map_result_err in H. destruct H as [ci [_ H]].
    eapply decompile_instruction_err, H.
  - intros Hk. induction (instructions message) as [|ci l IH]; simpl;
      [discriminate|].
    intros Hr Hx. apply andb_true_iff in Hr. destruct Hr as [Hci Hl].
    destruct (no_accounts ci) eqn:Hn; simpl in Hx.
    + assert (Hd : decompilable message ci = true).
      { unfold decompilable. rewrite Hci, Hn, orb_true_r. reflexivity. }
      apply decompile_instruction_ok_iff in Hd. destruct Hd as [ix Hd].
      rewrite Hd. simpl. rewrite (IH Hl Hx). reflexivity.
    + rewrite (decompile_instruction_v0 message ci Hk Hci Hn). reflexivity.
Qed.

(** X25.  The decompiled instructions are the compiled ones, one for one and
    in order: each has the data of its compiled instruction, the account
    key at its program id index for program id, and for every account
    index, in order, the account key there with the message's signer and
    writable flags for that index. *)
Theorem decompile_preserves
    (message : VersionedMessage) (ixs : list Instruction) :
  decompile_versioned_transaction_to_instructions message = Ok ixs ->
  Forall2
    (fun ci ix =>
       ix_data ix = ci_data ci
       /\ nth_error (account_keys message) (program_id_index ci)
          = Some (ix_program_id ix)
       /\ map (fun i => Some (meta_pubkey i)) (ix_accounts ix)
          = map (nth_error (account_keys message)) (ci_accounts ci)
       /\ map meta_is_signer (ix_accounts ix)
          = map (is_signer message) (ci_accounts ci)
       /\ map meta_is_writable (ix_accounts ix)
          = map (is_writable message) (ci_accounts ci))
    (instructions message) ixs.
Proof.
  unfold decompile_versioned_transaction_to_instructions. intros H.
  apply map_result_forall2 in H.
  eapply Forall2_impl; [|exact H]. clear H. intros ci ix H.
  unfold decompile_instruction in H.
  destruct (index (account_keys message) (program_id_index ci))
    as [pid|e] eqn:EP; simpl in H; [|discriminate].
  destruct (map_result (account_meta message) (ci_accounts ci))
    as [accs|e] eqn:EM; simpl in H; [|discriminate].
  inversion H. subst. simpl. split; [reflexivity|]. split.
  { unfold index in EP.
    destruct (nth_error (account_keys message) (program_id_index ci));
      [congruence | discriminate]. }
  apply map_result_forall2 in EM. clear H EP.
  induction EM as [|i meta l accs Hm _ IH]; simpl; [auto|].
  destruct IH as [I1 [I2 I3]]. unfold account_meta, call_is_writable in Hm.
  unfold index in Hm.
  destruct (nth_error (account_keys message) i) as [k|] eqn:EK;
    simpl in Hm; [|discriminate].
  destruct (message_kind message); simpl in Hm; [|discriminate].
  inversion Hm. subst. simpl. rewrite I1, I2, I3. auto.
Qed.

(** *** What [get_quote] reports *)

Lemma report_error_data_throws (j : Jupiter) (response : Response) :
  exists r, report_error_data j response = Threw r.
Proof.
  unfold report_error_data. destruct (json response) as [d|r]; simpl;
    [|eauto].
  destruct (get d "error" (PStr "Unknown error")); eauto.
Qed.


(** X27.  A response whose status is not 200 is reported with its body text
    and the prefix twice, ["Failed to get quote: Failed to get quote: "]
    followed by the text, whatever [response.json()] gives: the
    ["error"] field of the body is read and then dropped, because the
    bare [except] around it also catches the exception that carries
    it. *)
Theorem get_quote_bad_status
    (j : Jupiter) (parameters : pyval) (params : GetQuoteParameters)
    (response : Response) (body : string) :
  validate_parameters j parameters = Got params ->
  http_get j (base_url ++ "/quote") (request_params params) = Got response ->
  text response = Got body ->
  status response <> 200%Z ->
  get_quote j parameters
  = Threw (Exception ("Failed to get quote: Failed to get quote: " ++ body)).
Proof.
  intros Hv Hg Ht Hs. unfold get_quote, request_quote.
  rewrite Hv. cbn [tbind]. rewrite Hg. cbn [tbind]. rewrite Ht. cbn [tbind].
  destruct (Z.eqb_spec (status response) 200) as [E|_]; [contradiction|].
  cbn [negb]. destruct (report_error_data_throws j response) as [r Hr].
  rewrite Hr. reflexivity.
Qed.

(** X28.  [get_quote] returns only what [QuoteResponse.model_validate] made of
    the JSON body of a response with status 200, to the request built
    from the validated parameters. *)
Theorem get_quote_returns
    (j : Jupiter) (parameters quote : pyval) :
  get_quote j parameters = Got quote ->
  exists params response body data,
    validate_parameters j parameters = Got params
    /\ http_get j (base_url ++ "/quote") (request_params params)
       = Got response
    /\ text response = Got body
    /\ status response = 200%Z
    /\ json response = Got data
    /\ validate_quote j data = Got quote.
Proof.
  unfold get_quote.
  destruct (request_quote j parameters) as [q|error] eqn:ER.
  - intros H. inversion H. subst q. unfold request_quote in ER.
    destruct (validate_parameters j parameters) as [params|r] eqn:EV;
      cbn [tbind] in ER; [|discriminate].
    destruct (http_get j (base_url ++ "/quote") (request_params params))
      as [response|r] eqn:EG; cbn [tbind] in ER; [|discriminate].
    destruct (text response) as [body|r] eqn:ET; cbn [tbind] in ER;
      [|discriminate].
    destruct (Z.eqb_spec (status response) 200) as [E|N]; cbn [negb] in ER.
    + destruct (json response) as [data|r] eqn:EJ; cbn [tbind] in ER;
        [|discriminate].
      exists params, response, body, data. repeat split; assumption.
    + destruct (report_error_data_throws j response) as [r Hr].
      rewrite Hr in ER. discriminate.
  - destruct (response_error error) as [[s m]|];
      [destruct (negb (Z.eqb s 404))|]; discriminate.
Qed.

End Properties.

(* ================================================================= *)
(** ** Worked scenarios *)

(** A transfer submitted with a custodial signer, the custody API
    answering [success] with [onChain.txId = "0xTX1"] at once. *)
Example scenario_custodial_success :
  _send_batch_of_transactions
    (demo_env (PDict [("id", PStr "tx-1")]) [] status_success_tx)
    5 custodial_wallet [transfer_tx] []
  = (Returned (PDict [("hash", PStr "0xTX1"); ("status", PStr "success")]),
     [Api (create_transaction_for_smart_wallet
             "0xWALLET" [transfer_call] "base-sepolia" None)
          (Ok (PDict [("id", PStr "tx-1")]));
      Api (check_transaction_status "0xWALLET" (PStr "tx-1"))
          (Ok status_success_tx)]).
Proof. reflexivity. Qed.

(** The same transfer with a key-held signer: ["0xDEAD"] is signed and
    approved, one [pending] is polled, then [failed]. *)
Example scenario_key_held_failed :
  _send_batch_of_transactions
    (demo_env created_transaction [status_pending] status_failed)
    5 keypair_wallet [transfer_tx] []
  = (Returned (PDict [("hash", PStr ""); ("status", PStr "failed")]),
     [Api (create_transaction_for_smart_wallet
             "0xWALLET" [transfer_call] "base-sepolia" (Some "0xS1GNER"))
          (Ok created_transaction);
      LocalSign "0xS1GNER" (PStr "0xDEAD") (Ok "signed:0xDEAD");
      Api (approve_transaction "0xWALLET" (PStr "tx-1")
             [mkApproval "signed:0xDEAD" "evm-keypair:0xS1GNER"])
          (Ok PNone);
      Api (check_transaction_status "0xWALLET" (PStr "tx-1"))
          (Ok status_pending);
      Sleep 2;
      Api (check_transaction_status "0xWALLET" (PStr "tx-1"))
          (Ok status_failed)]).
Proof. reflexivity. Qed.

(** C1 as stated fails: [sign_message] turns a [failed] status into a
    raised [ValueError], and a submission whose [failed] status carries
    an [onChain.txId] returns that id as the hash, not [""]. *)
Lemma failed_status_counterexample :
  sign_message
    (demo_env created_signature [status_pending] status_failed)
    5 custodial_wallet "hello" []
  = (Raised (ValueError "Signature failed"),
     [Api (sign_message_for_smart_wallet
             "0xWALLET" "hello" "base-sepolia" None)
          (Ok created_signature);
      Api (check_signature_status (PStr "sig-1") "0xWALLET")
          (Ok status_pending);
      Sleep 2;
      Api (check_signature_status (PStr "sig-1") "0xWALLET")
          (Ok status_failed)])
  /\ _send_batch_of_transactions
       (demo_env created_transaction [] status_failed_on_chain)
       5 custodial_wallet [transfer_tx] []
     = (Returned (PDict [("hash", PStr "0xTX9"); ("status", PStr "failed")]),
        [Api (create_transaction_for_smart_wallet
                "0xWALLET" [transfer_call] "base-sepolia" None)
             (Ok created_transaction);
         Api (check_transaction_status "0xWALLET" (PStr "tx-1"))
             (Ok status_failed_on_chain)]).
Proof. split; reflexivity. Qed.

Lemma failed_status_outcome_witness :
  fst (_send_batch_of_transactions
         (demo_env created_transaction [status_pending] status_failed)
         5 keypair_wallet [transfer_tx] [])
  = Returned (PDict [("hash", PStr ""); ("status", PStr "failed")])
  /\ fst (sign_message
            (demo_env created_signature [status_pending] status_failed)
            5 custodial_wallet "hello" [])
     = Raised (ValueError "Signature failed")
  /\ _send_batch_of_transactions
       (demo_env created_transaction [status_pending]
          status_failed_null_on_chain)
       5 custodial_wallet [transfer_tx] []
     = (Raised AttributeError,
        [Api (create_transaction_for_smart_wallet
                "0xWALLET" [transfer_call] "base-sepolia" None)
             (Ok created_transaction);
         Api (check_transaction_status "0xWALLET" (PStr "tx-1"))
             (Ok status_pending);
         Sleep 2;
         Api (check_transaction_status "0xWALLET" (PStr "tx-1"))
             (Ok status_failed_null_on_chain)]).
Proof.
  split; [|split].
  - apply (proj1 (failed_status_outcome
             (demo_env created_transaction [status_pending] status_failed)
             5 keypair_wallet []
             (check_transaction_status "0xWALLET" (PStr "tx-1"))
             status_failed eq_refl eq_refl));
      reflexivity.
  - apply (proj1 (proj2 (proj2 (failed_status_outcome
             (demo_env created_signature [status_pending] status_failed)
             5 custodial_wallet []
             (check_signature_status (PStr "sig-1") "0xWALLET")
             status_failed eq_refl eq_refl))));
      reflexivity.
  - apply (proj1 (proj2 (proj2 (proj2 (proj2 (failed_status_outcome
             (demo_env created_transaction [status_pending]
                status_failed_null_on_chain)
             5 custodial_wallet []
             (check_transaction_status "0xWALLET" (PStr "tx-1"))
             status_failed_null_on_chain eq_refl eq_refl)))))
           [transfer_tx] [transfer_call] created_transaction (PStr "tx-1")
           [status_pending] eq_refl eq_refl eq_refl eq_refl).
    + split; [|split; reflexivity].
      intros j _. destruct j as [|[|j]]; reflexivity.
    + simpl. lia.
Defined.

(** The failing input of C2: a key-held signer and nothing pending. *)
Lemma send_empty_pending_approvals_witness :
  _send_batch_of_transactions
    (demo_env created_transaction_nothing_pending [] status_failed)
    5 keypair_wallet [transfer_tx] []
  = (Raised IndexError,
     [Api (create_transaction_for_smart_wallet
             "0xWALLET" [transfer_call] "base-sepolia" (Some "0xS1GNER"))
          (Ok created_transaction_nothing_pending)]).
Proof.
  apply (send_empty_pending_approvals
           (demo_env created_transaction_nothing_pending [] status_failed)
           5 keypair_wallet [transfer_tx] [transfer_call] []
           "0xSECRET" "0xS1GNER" created_transaction_nothing_pending
           (PDict [("pending", PList [])]));
    reflexivity.
Defined.

Lemma send_signs_first_pending_witness :
  exists r rest,
    snd (_send_batch_of_transactions
           (demo_env created_transaction [status_pending] status_failed)
           5 keypair_wallet [transfer_tx] [])
    = [Api (create_transaction_for_smart_wallet
              "0xWALLET" [transfer_call] "base-sepolia" (Some "0xS1GNER"))
           (Ok created_transaction);
       LocalSign "0xS1GNER" (PStr "0xDEAD") (Ok "signed:0xDEAD");
       Api (approve_transaction "0xWALLET" (PStr "tx-1")
              [mkApproval "signed:0xDEAD" "evm-keypair:0xS1GNER"]) r]
      ++ rest
    /\ count is_local_sign rest = 0
    /\ count is_approval rest = 0.
Proof.
  apply (send_signs_first_pending
           (demo_env created_transaction [status_pending] status_failed)
           5 keypair_wallet [transfer_tx] [transfer_call] []
           "0xSECRET" "0xS1GNER" created_transaction
           (PDict [("pending", PList [PDict [("message", PStr "0xDEAD")]])])
           (PDict [("message", PStr "0xDEAD")]) [] (PStr "0xDEAD")
           demo_account "signed:0xDEAD" (PStr "tx-1"));
    reflexivity.
Defined.

(** C4 as stated fails: an [abi] that is set, but to the empty list,
    needs no function name. *)
Lemma empty_abi_counterexample :
  build_transaction_data (demo_env PNone [] PNone)
    "0xABC" (Some []) None None (Some 5%Z)
  = Ok (mkCall "0xABC" "5" "0x").
Proof. reflexivity. Qed.

Lemma sign_typed_data_custodial_witness :
  sign_typed_data
    (demo_env created_signature [] status_success_signature)
    5 custodial_wallet (PDict [("primaryType", PStr "Permit")]) []
  = (Raised (ValueError "Keypair signer is required for typed data signing"),
     []).
Proof.
  apply (proj1 (sign_typed_data_custodial
           (demo_env created_signature [] status_success_signature)
           5 custodial_wallet (PDict [("primaryType", PStr "Permit")]) []
           eq_refl)).
Defined.

Lemma custodial_signer_delegates_witness :
  has_custodial_signer custodial_wallet = true
  /\ forallb custodial_event
       (snd (_send_batch_of_transactions
               (demo_env created_transaction [status_pending] status_success_tx)
               5 custodial_wallet [transfer_tx] [])) = true
  /\ forallb custodial_event
       (snd (sign_message
               (demo_env created_signature [] status_success_signature)
               5 custodial_wallet "hello" [])) = true.
Proof.
  split; [reflexivity|]. split.
  - apply (proj1 (custodial_signer_delegates
             (demo_env created_transaction [status_pending] status_success_tx)
             5 custodial_wallet eq_refl)).
  - apply (proj1 (proj2 (custodial_signer_delegates
             (demo_env created_signature [] status_success_signature)
             5 custodial_wallet eq_refl))).
Defined.

(** C6 as stated fails: a batch of three transactions one of which names
    an ABI but no function creates no pending operation and polls
    nothing. *)
Lemma unbuildable_batch_counterexample :
  _send_batch_of_transactions
    (demo_env created_transaction [status_pending] status_success_tx)
    5 keypair_wallet [transfer_tx; transfer_tx; nameless_tx] []
  = (Raised (ValueError "Function name is required when ABI is provided"),
     [])
  /\ count is_creation
       (snd (_send_batch_of_transactions
               (demo_env created_transaction [status_pending]
                  status_success_tx)
               5 keypair_wallet [transfer_tx; transfer_tx; nameless_tx] []))
     = 0
  /\ count is_status_check
       (snd (_send_batch_of_transactions
               (demo_env created_transaction [status_pending]
                  status_success_tx)
               5 keypair_wallet [transfer_tx; transfer_tx; nameless_tx] []))
     = 0.
Proof. split; [reflexivity | split; reflexivity]. Qed.

Lemma batch_is_one_operation_witness :
  (snd (_send_batch_of_transactions
          (demo_env created_transaction [status_pending] status_success_tx)
          5 custodial_wallet [transfer_tx; transfer_tx; transfer_tx] [])
   = Api (create_transaction_for_smart_wallet
            "0xWALLET" [transfer_call; transfer_call; transfer_call]
            "base-sepolia" None)
         (Ok created_transaction)
       :: waits (check_transaction_status "0xWALLET" (PStr "tx-1"))
            [status_pending]
          ++ [Api (check_transaction_status "0xWALLET" (PStr "tx-1"))
                (Ok status_success_tx)]
   /\ poll_cycle
        (waits (check_transaction_status "0xWALLET" (PStr "tx-1"))
           [status_pending]
         ++ [Api (check_transaction_status "0xWALLET" (PStr "tx-1"))
               (Ok status_success_tx)])
      = true
   /\ ended
        (fst (_send_batch_of_transactions
                (demo_env created_transaction [status_pending]
                   status_success_tx)
                5 custodial_wallet [transfer_tx; transfer_tx; transfer_tx] []))
      = true)
  /\ _send_batch_of_transactions
       (demo_env created_transaction [status_pending] status_success_tx)
       5 custodial_wallet [transfer_tx; nameless_tx; transfer_tx] []
     = (Raised (ValueError "Function name is required when ABI is provided"),
        []).
Proof.
  split.
  - apply (proj1 (proj2 (proj2 (batch_is_one_operation
             (demo_env created_transaction [status_pending] status_success_tx)
             5 custodial_wallet [transfer_tx; transfer_tx; transfer_tx] [])))
           [transfer_call; transfer_call; transfer_call]
           created_transaction (PStr "tx-1") [status_pending]
           status_success_tx eq_refl eq_refl eq_refl eq_refl).
    + split; [|split; reflexivity].
      intros j _. destruct j as [|[|j]]; reflexivity.
    + simpl. lia.
  - apply (proj1 (batch_is_one_operation
             (demo_env created_transaction [status_pending] status_success_tx)
             5 custodial_wallet [transfer_tx; nameless_tx; transfer_tx] [])
           (ValueError "Function name is required when ABI is provided")
           eq_refl).
Defined.


(** C9 as stated fails: an ["outputSignature"] that is there, but is the
    empty string, makes a [success] status raise all the same. *)
Lemma empty_signature_counterexample :
  assoc "outputSignature"
    [("status", PStr "success"); ("outputSignature", PStr "")]
  = Some (PStr "")
  /\ sign_message
       (demo_env created_signature [] status_success_empty_signature)
       5 custodial_wallet "hello" []
     = (Raised (ValueError "Signature is undefined"),
        [Api (sign_message_for_smart_wallet
                "0xWALLET" "hello" "base-sepolia" None)
             (Ok created_signature);
         Api (check_signature_status (PStr "sig-1") "0xWALLET")
             (Ok status_success_empty_signature)]).
Proof. split; reflexivity. Qed.

Lemma success_status_signature_witness :
  fst (sign_message
         (demo_env created_signature [status_pending] status_success_signature)
         5 custodial_wallet "hello" [])
  = Returned (PDict [("signature", PStr "0xS1G")])
  /\ fst (sign_typed_data
            (demo_env created_transaction [] (PDict [("status", PStr "success")]))
            5 keypair_wallet PNone [])
     = Raised (ValueError "Signature is undefined").
Proof.
  split.
  - apply (proj1 (success_status_signature
             (demo_env created_signature [status_pending]
                status_success_signature)
             5 custodial_wallet []
             (check_signature_status (PStr "sig-1") "0xWALLET")
             status_success_signature (PStr "0xS1G")
             eq_refl eq_refl eq_refl));
      reflexivity.
  - apply (proj1 (proj2 (success_status_signature
             (demo_env created_transaction [] (PDict [("status", PStr "success")]))
             5 keypair_wallet []
             (check_signature_status (PStr "tx-1") "0xWALLET")
             (PDict [("status", PStr "success")]) PNone
             eq_refl eq_refl eq_refl)));
      reflexivity.
Defined.

(* ================================================================= *)
(** ** Worked scenarios for the rest of the module *)




Lemma resolve_address_returns_witness :
  (validate_address demo_providers "alice.eth" = Ok tt
   /\ to_checksum_address (demo_env PNone [] PNone) "alice.eth"
      = Ok "0xA11CE")
  \/ (exists resolve name,
        ens_resolve_name demo_providers = Some resolve
        /\ resolve "alice.eth" = Ok (Some name)
        /\ name <> ""
        /\ to_checksum_address (demo_env PNone [] PNone) name
           = Ok "0xA11CE").
Proof.
  apply (resolve_address_returns (demo_env PNone [] PNone) demo_providers
           "alice.eth" "0xA11CE" eq_refl).
Defined.

Lemma create_smart_wallet_returns_witness :
  _locator (mkClient "0xWALLET" "base-sepolia"
              (CustodialSigner "custodial") "0xWALLET")
  = "0xWALLET".
Proof.
  apply (proj1 (create_smart_wallet_returns demo_providers
                  (mkOptions None (Some linked_by_email) "base-sepolia"
                     (CustodialSigner "custodial"))
                  (mkClient "0xWALLET" "base-sepolia"
                     (CustodialSigner "custodial") "0xWALLET")
                  eq_refl)).
Defined.

Lemma factory_client_calls_its_wallet_witness :
  forallb (about_wallet "0xWALLET")
    (snd (_send_batch_of_transactions
            (demo_env created_transaction [status_pending] status_success_tx)
            5 keypair_wallet [transfer_tx] [])) = true.
Proof.
  apply (proj1 (factory_client_calls_its_wallet
                  (demo_env created_transaction [status_pending]
                     status_success_tx)
                  demo_providers
                  (mkOptions None (Some linked_by_phone) "base-sepolia"
                     (KeyPairSigner "0xSECRET" "0xS1GNER"))
                  keypair_wallet 5 [] eq_refl)).
Defined.

Ltac scenario :=
  first
    [ reflexivity
    | left; reflexivity
    | right; reflexivity
    | simpl; lia
    | split;
      [ intros j _; destruct j as [|[|[|j]]]; reflexivity
      | split; reflexivity ] ].

Lemma send_custodial_completes_witness :
  _send_batch_of_transactions
    (demo_env (PDict [("id", PStr "tx-1")]) [status_pending] status_success_tx)
    5 custodial_wallet [transfer_tx] []
  = (Returned (PDict [("hash", PStr "0xTX1"); ("status", PStr "success")]),
     [Api (create_transaction_for_smart_wallet
             "0xWALLET" [transfer_call] "base-sepolia" None)
          (Ok (PDict [("id", PStr "tx-1")]));
      Api (check_transaction_status "0xWALLET" (PStr "tx-1"))
          (Ok status_pending);
      Sleep 2;
      Api (check_transaction_status "0xWALLET" (PStr "tx-1"))
          (Ok status_success_tx)]).
Proof.
  apply (send_custodial_completes
           (demo_env (PDict [("id", PStr "tx-1")]) [status_pending]
              status_success_tx)
           5 custodial_wallet [transfer_tx] [transfer_call] []
           (PDict [("id", PStr "tx-1")]) (PStr "tx-1")
           [status_pending] status_success_tx "success" (PStr "0xTX1"));
    scenario.
Defined.

Lemma send_key_held_completes_witness :
  _send_batch_of_transactions
    (demo_env created_transaction [status_pending] status_failed)
    5 keypair_wallet [transfer_tx] []
  = (Returned (PDict [("hash", PStr ""); ("status", PStr "failed")]),
     [Api (create_transaction_for_smart_wallet
             "0xWALLET" [transfer_call] "base-sepolia" (Some "0xS1GNER"))
          (Ok created_transaction);
      LocalSign "0xS1GNER" (PStr "0xDEAD") (Ok "signed:0xDEAD");
      Api (approve_transaction "0xWALLET" (PStr "tx-1")
             [mkApproval "signed:0xDEAD" "evm-keypair:0xS1GNER"])
          (Ok PNone);
      Api (check_transaction_status "0xWALLET" (PStr "tx-1"))
          (Ok status_pending);
      Sleep 2;
      Api (check_transaction_status "0xWALLET" (PStr "tx-1"))
          (Ok status_failed)]).
Proof.
  apply (send_key_held_completes
           (demo_env created_transaction [status_pending] status_failed)
           5 keypair_wallet [transfer_tx] [transfer_call] []
           "0xSECRET" "0xS1GNER" created_transaction
           (PDict [("pending", PList [PDict [("message", PStr "0xDEAD")]])])
           (PDict [("message", PStr "0xDEAD")]) [] (PStr "0xDEAD")
           demo_account "signed:0xDEAD" (PStr "tx-1") PNone
           [status_pending] status_failed "failed" (PStr ""));
    scenario.
Defined.

Lemma sign_message_custodial_completes_witness :
  sign_message
    (demo_env created_signature [status_pending] status_success_signature)
    5 custodial_wallet "hello" []
  = (Returned (PDict [("signature", PStr "0xS1G")]),
     [Api (sign_message_for_smart_wallet
             "0xWALLET" "hello" "base-sepolia" None)
          (Ok created_signature);
      Api (check_signature_status (PStr "sig-1") "0xWALLET")
          (Ok status_pending);
      Sleep 2;
      Api (check_signature_status (PStr "sig-1") "0xWALLET")
          (Ok status_success_signature)]).
Proof.
  apply (sign_message_custodial_completes
           (demo_env created_signature [status_pending]
              status_success_signature)
           5 custodial_wallet "hello" [] created_signature (PStr "sig-1")
           (PDict []) [status_pending] status_success_signature
           (PStr "0xS1G"));
    scenario.
Defined.

Lemma sign_message_key_held_completes_witness :
  sign_message
    (demo_env created_signature_pending [] status_success_signature)
    5 keypair_wallet "hello" []
  = (Returned (PDict [("signature", PStr "0xS1G")]),
     [Api (sign_message_for_smart_wallet
             "0xWALLET" "hello" "base-sepolia" (Some "0xS1GNER"))
          (Ok created_signature_pending);
      LocalSign "0xS1GNER" (PStr "0xBEEF") (Ok "signed:0xBEEF");
      Api (approve_signature_for_smart_wallet (PStr "sig-1") "0xWALLET"
             "evm-keypair:0xS1GNER" "signed:0xBEEF")
          (Ok PNone);
      Api (check_signature_status (PStr "sig-1") "0xWALLET")
          (Ok status_success_signature)]).
Proof.
  apply (sign_message_key_held_completes
           (demo_env created_signature_pending [] status_success_signature)
           5 keypair_wallet "hello" [] "0xSECRET" "0xS1GNER" demo_account
           created_signature_pending (PStr "sig-1")
           (PDict [("pending", PList [PDict [("message", PStr "0xBEEF")]])])
           (PList [PDict [("message", PStr "0xBEEF")]])
           (PDict [("message", PStr "0xBEEF")]) (PStr "0xBEEF")
           "signed:0xBEEF" PNone [] status_success_signature (PStr "0xS1G"));
    scenario.
Defined.

Lemma sign_typed_data_completes_witness :
  sign_typed_data
    (demo_env created_signature_pending [] status_success_signature)
    5 keypair_wallet (PDict [("primaryType", PStr "Permit")]) []
  = (Returned (PDict [("signature", PStr "0xS1G")]),
     [Api (sign_typed_data_for_smart_wallet
             "0xWALLET" (PDict [("primaryType", PStr "Permit")])
             "base-sepolia" "0xS1GNER")
          (Ok created_signature_pending);
      LocalSign "0xS1GNER" (PStr "0xBEEF") (Ok "signed:0xBEEF");
      Api (approve_signature_for_smart_wallet (PStr "sig-1") "0xWALLET"
             "evm-keypair:0xS1GNER" "signed:0xBEEF")
          (Ok PNone);
      Api (check_signature_status (PStr "sig-1") "0xWALLET")
          (Ok status_success_signature)]).
Proof.
  apply (sign_typed_data_completes
           (demo_env created_signature_pending [] status_success_signature)
           5 keypair_wallet (PDict [("primaryType", PStr "Permit")]) []
           "0xSECRET" "0xS1GNER" demo_account
           created_signature_pending (PStr "sig-1")
           (PDict [("pending", PList [PDict [("message", PStr "0xBEEF")]])])
           (PDict [("message", PStr "0xBEEF")]) [] (PStr "0xBEEF")
           "signed:0xBEEF" PNone [] status_success_signature (PStr "0xS1G"));
    scenario.
Defined.

Lemma sign_message_checks_pending_witness :
  sign_message
    (demo_env created_signature [] status_success_signature)
    5 keypair_wallet "hello" []
  = (Raised (ValueError "No pending approvals found"),
     [Api (sign_message_for_smart_wallet
             "0xWALLET" "hello" "base-sepolia" (Some "0xS1GNER"))
          (Ok created_signature)]).
Proof.
  apply (proj1 (sign_message_checks_pending
                  (demo_env created_signature [] status_success_signature)
                  5 keypair_wallet "hello" [] "0xSECRET" "0xS1GNER"
                  demo_account created_signature (PStr "sig-1")
                  (PDict []) (PList [])
                  eq_refl eq_refl eq_refl eq_refl eq_refl eq_refl)
           eq_refl).
Defined.

Lemma secret_key_checked_after_creation_witness :
  _send_batch_of_transactions
    (demo_env created_transaction [] status_success_tx)
    5 keyless_wallet [transfer_tx] []
  = (Raised (ValueError "Signer account is not available"),
     [Api (create_transaction_for_smart_wallet
             "0xWALLET" [transfer_call] "base-sepolia" (Some "0xS1GNER"))
          (Ok created_transaction)]).
Proof.
  apply (proj1 (secret_key_checked_after_creation
                  (demo_env created_transaction [] status_success_tx)
                  5 keyless_wallet [] "0xS1GNER" eq_refl)
           [transfer_tx] [transfer_call] created_transaction
           eq_refl eq_refl).
Defined.

Lemma batch_calls_in_order_witness :
  map to [transfer_call; mkCall "0xC0DE" "0" "0xcalldata:approve"]
  = map tx_to [transfer_tx; call_tx].
Proof.
  apply (proj2 (batch_calls_in_order
                  (demo_env PNone [] PNone)
                  [transfer_tx; call_tx]
                  [transfer_call; mkCall "0xC0DE" "0" "0xcalldata:approve"]
                  eq_refl)).
Defined.

Lemma batch_fails_fast_witness :
  _send_batch_of_transactions
    (demo_env created_transaction [] status_success_tx)
    5 custodial_wallet [transfer_tx; nameless_tx; transfer_tx] []
  = (Raised (ValueError "Function name is required when ABI is provided"),
     []).
Proof.
  apply (proj1 (batch_fails_fast
                  (demo_env created_transaction [] status_success_tx)
                  5 custodial_wallet [transfer_tx; nameless_tx; transfer_tx]
                  [] _ eq_refl)).
Defined.

Lemma sign_typed_data_unchecked_pending_witness :
  sign_typed_data
    (demo_env created_transaction_nothing_pending [] status_success_signature)
    5 keypair_wallet PNone []
  = (Raised IndexError,
     [Api (sign_typed_data_for_smart_wallet
             "0xWALLET" PNone "base-sepolia" "0xS1GNER")
          (Ok created_transaction_nothing_pending)]).
Proof.
  apply (proj2 (proj2 (sign_typed_data_unchecked_pending
                         (demo_env created_transaction_nothing_pending []
                            status_success_signature)
                         5 keypair_wallet PNone [] "0xSECRET" "0xS1GNER"
                         created_transaction_nothing_pending
                         eq_refl eq_refl eq_refl))
           (PDict [("pending", PList [])]) eq_refl eq_refl).
Defined.

Lemma read_returns_witness :
  read (demo_env PNone [] PNone) web3_providers demo_read
  = Err AttributeError
  /\ read (demo_env PNone [] PNone) demo_providers demo_read
     = Ok (PDict [("value", PInt 7)]).
Proof.
  split.
  - apply (proj1 (proj2 (read_returns
             (demo_env PNone [] PNone) web3_providers demo_read))
           eq_refl eq_refl).
  - apply (proj1 (proj2 (proj2 (read_returns
             (demo_env PNone [] PNone) demo_providers demo_read)))
           (fun _ _ _ _ => Ok (PInt 7)) "0xA11CE" (PInt 7)
           eq_refl eq_refl eq_refl eq_refl).
Defined.

Lemma decompile_succeeds_iff_witness :
  decompile_versioned_transaction_to_instructions demo_message_v0
  = Err AttributeError.
Proof.
  apply (proj2 (proj2 (decompile_succeeds_iff demo_message_v0))
           eq_refl eq_refl eq_refl).
Defined.

Lemma decompile_preserves_witness :
  Forall2
    (fun ci ix =>
       ix_data ix = ci_data ci
       /\ nth_error (account_keys (demo_message false)) (program_id_index ci)
          = Some (ix_program_id ix)
       /\ map (fun i => Some (meta_pubkey i)) (ix_accounts ix)
          = map (nth_error (account_keys (demo_message false)))
              (ci_accounts ci)
       /\ map meta_is_signer (ix_accounts ix)
          = map (is_signer (demo_message false)) (ci_accounts ci)
       /\ map meta_is_writable (ix_accounts ix)
          = map (is_writable (demo_message false)) (ci_accounts ci))
    (instructions (demo_message false))
    [mkInstruction "KEY-1" "data-a"
       [mkMeta "KEY-0" true true; mkMeta "KEY-1" false true];
     mkInstruction "KEY-0" "data-b" [mkMeta "KEY-1" false true]].
Proof.
  apply (decompile_preserves (demo_message false) _ eq_refl).
Defined.


Lemma get_quote_bad_status_witness :
  get_quote (demo_jupiter bad_request) PNone
  = Threw (Exception "Failed to get quote: Failed to get quote: no route").
Proof.
  apply (get_quote_bad_status (demo_jupiter bad_request) PNone
           demo_quote_parameters bad_request "no route"
           eq_refl eq_refl eq_refl).
  discriminate.
Defined.

Lemma get_quote_returns_witness :
  exists params response body data,
    validate_parameters (demo_jupiter good_response) PNone = Got params
    /\ http_get (demo_jupiter good_response) (base_url ++ "/quote")
         (request_params params) = Got response
    /\ text response = Got body
    /\ status response = 200%Z
    /\ json response = Got data
    /\ validate_quote (demo_jupiter good_response) data
       = Got (PDict [("outAmount", PStr "42")]).
Proof.
  apply (get_quote_returns (demo_jupiter good_response) PNone
           (PDict [("outAmount", PStr "42")]) eq_refl).
Defined.
